(** * Nudge: settings controller and overlay countdown

  A shallow embedding of the two front-end scripts of the Nudge break
  reminder, [src/settings.js] (the settings window) and [src/main.js]
  (the overlay window), followed by the properties of the written
  specification that concern them.

  Both scripts are event handlers closed over a handful of mutable
  variables and DOM nodes.  The variables and the DOM properties they
  touch become the fields of a record, every handler becomes a function
  on that record, and the host (the Tauri bridge, the settings store,
  the interval timers) becomes an explicit part of the state together
  with an oracle that says which bridge calls are rejected. *)

From Stdlib Require Import ZArith QArith String Ascii List Lia.
From Stdlib Require Import DecimalString DecimalZ DecimalPos DecimalN.
From stdpp Require Import gmap strings.

Local Open Scope Z_scope.

(* ===================================================================== *)
(** ** JavaScript values and the coercions the scripts rely on *)
(* ===================================================================== *)

Module Js.

(** The values that travel between the scripts, the store and the DOM.
    Numbers are the integers; [NaN] only ever arises as the result of
    [parseInt] and is represented there by [None]. *)
Inductive jsval : Type :=
| JUndefined
| JNull
| JBool (b : bool)
| JNum (z : Z)
| JStr (s : string).

(** [a ?? b]: the right operand is used only when the left one is
    [null] or [undefined]. *)
Definition nullish (a b : jsval) : jsval :=
  match a with
  | JUndefined | JNull => b
  | _ => a
  end.

(** Decimal rendering of an integer, as [Number.prototype.toString]
    prints every integer below 10^21 in absolute value. *)
Definition string_of_Z (z : Z) : string :=
  NilZero.string_of_int (Z.to_int z).

Definition ToString (v : jsval) : string :=
  match v with
  | JUndefined => "undefined"
  | JNull => "null"
  | JBool true => "true"
  | JBool false => "false"
  | JNum z => string_of_Z z
  | JStr s => s
  end.

Definition ToBoolean (v : jsval) : bool :=
  match v with
  | JUndefined | JNull => false
  | JBool b => b
  | JNum z => negb (z =? 0)
  | JStr s => negb (String.eqb s "")
  end.

(** Assignment to [input.value]: the attribute is a DOMString that maps
    [null] to the empty string. *)
Definition value_setter (v : jsval) : string :=
  match v with
  | JNull => ""
  | _ => ToString v
  end.

(** *** [parseInt(s, 10)] *)

Definition is_space (c : ascii) : bool :=
  let n := nat_of_ascii c in
  ((9 <=? n) && (n <=? 13) || (n =? 32))%nat.

Definition digit_of (c : ascii) : option Z :=
  let n := Z.of_nat (nat_of_ascii c) in
  if (48 <=? n) && (n <=? 57) then Some (n - 48) else None.

Fixpoint trimStart (s : string) : string :=
  match s with
  | String c s' => if is_space c then trimStart s' else s
  | EmptyString => s
  end.

(** The longest prefix of decimal digits, read left to right; [acc] is
    [None] as long as no digit has been seen. *)
Fixpoint digits (s : string) (acc : option Z) : option Z :=
  match s with
  | String c s' =>
      match digit_of c with
      | Some d => digits s' (Some (10 * default 0 acc + d))
      | None => acc
      end
  | EmptyString => acc
  end.

(** [None] stands for [NaN].  Leading white space is skipped, one sign
    is accepted, then the digits are read up to the first character that
    is not one; no digit at all gives [NaN].  Strings are sequences of
    bytes, so the white space skipped is the ASCII one; the result is the
    exact integer, which the script only compares with 1, 180, 5 and 300
    and stores when it lies between them. *)
Definition parseInt (s : string) : option Z :=
  match trimStart s with
  | String "-" s' => Z.opp <$> digits s' None
  | String "+" s' => digits s' None
  | s' => digits s' None
  end.

(** The three methods of [console] the scripts use. *)
Inductive level : Type := LLog | LWarn | LError.

(** [isNaN(x) || x < lo || x > hi] on a [parseInt] result. *)
Definition rejected (x : option Z) (lo hi : Z) : bool :=
  match x with
  | None => true
  | Some z => (z <? lo) || (z >? hi)
  end.

(** The first character of a string is not a decimal digit. *)
Definition no_digit_ahead (s : string) : bool :=
  match s with
  | String c _ => match digit_of c with Some _ => false | None => true end
  | EmptyString => true
  end.

End Js.

(* ===================================================================== *)
(** ** The settings window, [src/settings.js] *)
(* ===================================================================== *)

(** The script does nothing when [window.__TAURI__] is missing, so the
    model starts where the handlers exist: the bridge and the form are
    there, [loadSettings] runs once the page is loaded and [saveSettings]
    on every click of the save button.  A handler is followed from its
    first statement to its last: no other event is taken in while it
    waits for the host. *)

Module Settings.
Import Js.

(** Calls that leave the script: the store plugin, the autostart plugin
    and the backend commands. *)
Inductive call : Type :=
| StoreLoad (path : string)
| StoreGet (key : string)
| StoreSet (key : string) (v : jsval)
| StoreSave
| AutostartEnable
| AutostartDisable
| Invoke (cmd : string).

(** The host's answer to a call: [None] when the promise resolves,
    [Some m] when it rejects with an error whose [message] is [m]. *)
Definition host : Type := call -> option string.

Inductive event : Type :=
| Console (l : level) (text : string) (args : list string)
| Called (c : call) (answer : option string)
| Status (message type : string).

(** The variables of the script, the DOM properties it reads and writes,
    and the two layers of the store: the loaded contents and what the
    last [save()] committed. *)
Record World : Type := mkWorld {
  settingsStore : bool;                (* [false] is [null] *)
  store_mem : gmap string jsval;
  store_disk : gmap string jsval;
  intervalInput_value : string;
  durationInput_value : string;
  autostartInput_checked : bool;
  statusMessage_textContent : string;
  statusMessage_className : string;
  trace : list event
}.

Definition with_settingsStore (b : bool) (w : World) : World :=
  mkWorld b (store_mem w) (store_disk w) (intervalInput_value w)
    (durationInput_value w) (autostartInput_checked w)
    (statusMessage_textContent w) (statusMessage_className w) (trace w).

Definition with_store_mem (m : gmap string jsval) (w : World) : World :=
  mkWorld (settingsStore w) m (store_disk w) (intervalInput_value w)
    (durationInput_value w) (autostartInput_checked w)
    (statusMessage_textContent w) (statusMessage_className w) (trace w).

Definition with_store_disk (m : gmap string jsval) (w : World) : World :=
  mkWorld (settingsStore w) (store_mem w) m (intervalInput_value w)
    (durationInput_value w) (autostartInput_checked w)
    (statusMessage_textContent w) (statusMessage_className w) (trace w).

Definition with_inputs (i d : string) (a : bool) (w : World) : World :=
  mkWorld (settingsStore w) (store_mem w) (store_disk w) i d a
    (statusMessage_textContent w) (statusMessage_className w) (trace w).

Definition with_status (text cls : string) (w : World) : World :=
  mkWorld (settingsStore w) (store_mem w) (store_disk w)
    (intervalInput_value w) (durationInput_value w)
    (autostartInput_checked w) text cls (trace w).

Definition with_event (e : event) (w : World) : World :=
  mkWorld (settingsStore w) (store_mem w) (store_disk w)
    (intervalInput_value w) (durationInput_value w)
    (autostartInput_checked w) (statusMessage_textContent w)
    (statusMessage_className w) (trace w ++ [e]).

(** *** Control: state passing with exceptions *)

Inductive outcome (A : Type) : Type :=
| Done (a : A)
| Thrown (message : string).
Arguments Done {A} a.
Arguments Thrown {A} message.

Definition M (A : Type) : Type := World -> outcome A * World.

Definition ret {A} (a : A) : M A := fun w => (Done a, w).

Definition bind {A B} (m : M A) (k : A -> M B) : M B :=
  fun w =>
    match m w with
    | (Done a, w') => k a w'
    | (Thrown e, w') => (Thrown e, w')
    end.

Definition try_catch {A} (body : M A) (handler : string -> M A) : M A :=
  fun w =>
    match body w with
    | (Done a, w') => (Done a, w')
    | (Thrown e, w') => handler e w'
    end.

Definition modify (f : World -> World) : M unit := fun w => (Done tt, f w).
Definition reads {A} (f : World -> A) : M A := fun w => (Done (f w), w).

Declare Scope js_scope.
Delimit Scope js_scope with js.
Notation "x <- m ; k" := (bind m (fun x => k))
  (at level 20, m at level 100, k at level 200, only parsing) : js_scope.
Notation "m ;; k" := (bind m (fun _ => k))
  (at level 100, k at level 200, only parsing, right associativity) : js_scope.
Local Open Scope js_scope.

Definition console (l : level) (text : string) (args : list string) : M unit :=
  modify (with_event (Console l text args)).

(** An awaited call: on rejection nothing but the trace changes and the
    error is thrown; on success [effect] is applied. *)
Definition await (h : host) (c : call) (effect : World -> World) : M unit :=
  fun w =>
    match h c with
    | None => (Done tt, with_event (Called c None) (effect w))
    | Some e => (Thrown e, with_event (Called c (Some e)) w)
    end.

(** *** The store plugin *)

Definition Store_load (h : host) (path : string) : M unit :=
  await h (StoreLoad path) (with_settingsStore true).

Definition Store_get (h : host) (key : string) : M jsval :=
  await h (StoreGet key) id ;;
  reads (fun w => default JUndefined (store_mem w !! key)).

Definition Store_set (h : host) (key : string) (v : jsval) : M unit :=
  await h (StoreSet key v) (fun w => with_store_mem (<[key := v]> (store_mem w)) w).

Definition Store_save (h : host) : M unit :=
  await h StoreSave (fun w => with_store_disk (store_mem w) w).

(** *** The functions of the script *)

(** [showStatus]: the message and its class are set at once; the
    time-out that blanks them three seconds later is a later event. *)
Definition showStatus (message type : string) : M unit :=
  modify (with_status message type) ;;
  modify (with_event (Status message type)).

Definition initStore (h : host) : M bool :=
  try_catch
    (console LLog "📦 Initializing store..." [] ;;
     Store_load h "settings.json" ;;
     console LLog "✅ Store initialized" [] ;;
     ret true)
    (fun error =>
       console LError "❌ Failed to initialize store:" [error] ;;
       showStatus "Error initializing settings store" "error" ;;
       ret false).

(** [if (!settingsStore) { const initialized = await initStore(); ... }]:
    the result says whether the function goes on. *)
Definition ensureStore (h : host) : M bool :=
  present <- reads settingsStore ;
  if present then ret true else initStore h.

Definition loadSettings (h : host) : M unit :=
  ready <- ensureStore h ;
  if negb ready then ret tt else
  try_catch
    (console LLog "📖 Loading settings..." [] ;;
     i <- Store_get h "intervalMinutes" ;
     let interval := nullish i (JNum 20) in
     d <- Store_get h "overlayDurationSeconds" ;
     let duration := nullish d (JNum 20) in
     a <- Store_get h "autoStart" ;
     let autoStart := nullish a (JBool false) in
     console LLog "✅ Settings loaded:"
       [ToString interval; ToString duration; ToString autoStart] ;;
     modify (with_inputs (value_setter interval) (value_setter duration)
               (ToBoolean autoStart)))
    (fun error =>
       console LError "❌ Failed to load settings:" [error] ;;
       showStatus ("Error loading settings: " +:+ error) "error").

Definition saveSettings (h : host) : M unit :=
  console LLog "💾 Saving settings..." [] ;;
  ready <- ensureStore h ;
  if negb ready then ret tt else
  try_catch
    (iv <- reads intervalInput_value ;
     let interval := parseInt iv in
     dv <- reads durationInput_value ;
     let duration := parseInt dv in
     if rejected interval 1 180 then
       showStatus "Interval must be between 1-180 minutes" "error"
     else if rejected duration 5 300 then
       showStatus "Duration must be between 5-300 seconds" "error"
     else
       let interval := default 0 interval in
       let duration := default 0 duration in
       Store_set h "intervalMinutes" (JNum interval) ;;
       Store_set h "overlayDurationSeconds" (JNum duration) ;;
       checked <- reads autostartInput_checked ;
       Store_set h "autoStart" (JBool checked) ;;
       Store_save h ;;
       console LLog "✅ Settings saved to store" [] ;;
       try_catch
         (checked <- reads autostartInput_checked ;
          if checked then
            await h AutostartEnable id ;;
            console LLog "✅ Autostart enabled" []
          else
            await h AutostartDisable id ;;
            console LLog "✅ Autostart disabled" [])
         (fun error =>
            console LWarn "⚠️ Autostart setting failed:" [error]) ;;
       console LLog "🔄 Restarting timer..." [] ;;
       await h (Invoke "restart_timer") id ;;
       console LLog "✅ Timer restarted" [] ;;
       showStatus "Settings saved successfully!" "success")
    (fun error =>
       console LError "❌ Failed to save settings:" [error] ;;
       showStatus ("Error saving settings: " +:+ error) "error").

(** The state a handler leaves behind. *)
Definition exec {A} (m : M A) (w : World) : World := snd (m w).

(** *** Vocabulary for the properties *)

(** The store plugin resolves every call made to it. *)
Definition store_answers (h : host) : Prop :=
  (forall path, h (StoreLoad path) = None) /\
  (forall key, h (StoreGet key) = None) /\
  (forall key v, h (StoreSet key v) = None) /\
  h StoreSave = None.

(** The handle is there already, or [Store.load] will provide it. *)
Definition store_reachable (h : host) (w : World) : Prop :=
  settingsStore w = true \/ h (StoreLoad "settings.json") = None.

(** What the user reads in the status line. *)
Definition status (w : World) : string * string :=
  (statusMessage_textContent w, statusMessage_className w).

(** What the form shows. *)
Definition form (w : World) : string * string * bool :=
  (intervalInput_value w, durationInput_value w, autostartInput_checked w).

Definition is_store_write (e : event) : bool :=
  match e with
  | Called (StoreSet _ _) _ | Called StoreSave _ => true
  | _ => false
  end.

Definition is_rearm (e : event) : bool :=
  match e with
  | Called (Invoke cmd) _ => String.eqb cmd "restart_timer"
  | _ => false
  end.

Definition is_commit (e : event) : bool :=
  match e with
  | Called StoreSave None => true
  | _ => false
  end.

Definition is_error_line (e : event) : bool :=
  match e with
  | Console LError _ _ => true
  | _ => false
  end.

Definition is_failed_write (e : event) : bool :=
  match e with
  | Called (StoreSet _ _) (Some _) | Called StoreSave (Some _) => true
  | _ => false
  end.

(** How a run reports a failure: the status line and the lines
    written with [console.error]. *)
Definition report (w : World) : string * string * list event :=
  (statusMessage_textContent w, statusMessage_className w,
   List.filter is_error_line (trace w)).

(** The events a handler added to a trace that was [old] before. *)
Definition new_events (old : list event) (w' : World) : list event :=
  drop (length old) (trace w').

(** Scans a trace from its oldest event on: every rearm request must
    come after a commit that went through. *)
Fixpoint rearm_follows_commit (committed : bool) (l : list event) : bool :=
  match l with
  | e :: l' =>
      (if is_rearm e then committed else true) &&
      rearm_follows_commit (committed || is_commit e) l'
  | [] => true
  end.

(** *** Vocabulary for the further properties *)

Definition is_host_call (e : event) : bool :=
  match e with Called _ _ => true | _ => false end.

Definition is_StoreLoad (e : event) : bool :=
  match e with Called (StoreLoad _) _ => true | _ => false end.

Definition is_enable (e : event) : bool :=
  match e with Called AutostartEnable _ => true | _ => false end.

Definition is_disable (e : event) : bool :=
  match e with Called AutostartDisable _ => true | _ => false end.

(** Any call other than a read of the store: a write, a commit, a
    change of the autostart registration or a backend command. *)
Definition is_effect (e : event) : bool :=
  match e with
  | Called (StoreSet _ _) _ | Called StoreSave _
  | Called AutostartEnable _ | Called AutostartDisable _
  | Called (Invoke _) _ => true
  | _ => false
  end.

(** What [saveSettings] lets through for each of its three keys. *)
Definition valid_entry (key : string) (v : jsval) : bool :=
  if String.eqb key "intervalMinutes" then
    match v with JNum i => (1 <=? i) && (i <=? 180) | _ => false end
  else if String.eqb key "overlayDurationSeconds" then
    match v with JNum d => (5 <=? d) && (d <=? 300) | _ => false end
  else if String.eqb key "autoStart" then
    match v with JBool _ => true | _ => false end
  else true.

Definition valid_store (m : gmap string jsval) : Prop :=
  forall key v, m !! key = Some v -> valid_entry key v = true.

End Settings.


(* ===================================================================== *)
(** ** The overlay window, [src/main.js] *)
(* ===================================================================== *)

(** The script gives up at once when one of its three DOM nodes is
  missing; the model covers a page that has them. *)

Module Overlay.
Import Js.

(** The value of [timeLeft / duration] and of the percentage computed
    from it.  The quotient of two integers is kept as an exact fraction;
    a zero divisor gives the infinities and [NaN] of the language. *)
Inductive jsnum : Type :=
| Fin (q : Q)
| PosInf
| NegInf
| NaN.

Definition divide (a b : Z) : jsnum :=
  if b =? 0 then
    if a =? 0 then NaN else if 0 <? a then PosInf else NegInf
  else Fin (Qmake (a * Z.sgn b) (Z.to_pos (Z.abs b))).

Definition times (x : jsnum) (k : Z) : jsnum :=
  match x with
  | Fin q => Fin (q * inject_Z k)
  | other => other
  end.

Definition nonnegative (x : jsnum) : bool :=
  match x with
  | Fin q => Qle_bool 0 q
  | PosInf => true
  | NegInf | NaN => false
  end.

Definition is_zero (x : jsnum) : bool :=
  match x with
  | Fin q => Qeq_bool q 0
  | _ => false
  end.

(** What the page finds under [window.__TAURI__], and how the window
    API answers when the overlay asks to be closed ([None]: no
    exception). *)
Record Bridge : Type := mkBridge {
  TAURI : bool;
  TAURI_core : bool;
  TAURI_window : bool;
  getCurrentWindow_throws : option string;
  close_throws : option string
}.

Inductive event : Type :=
| Console (l : level) (text : string) (args : list string)
| InvokeCall (cmd : string)
| SetInterval (id : positive)
| ClearInterval (id : positive)
| CloseRoutine                  (* [closeWindow] is entered *)
| CloseRequest.                 (* [appWindow.close()] is called *)

(** The three variables of the script, the two DOM properties it
    writes ([None]: still as the markup has them), the interval timers
    the host keeps alive, and whether [init] is suspended at its
    [await]. *)
Record State : Type := mkState {
  duration : Z;
  timeLeft : Z;
  intervalId : option positive;
  countdown_textContent : option Z;
  progress_width : option jsnum;       (* in percent *)
  timers : gset positive;
  next_timer : positive;
  awaiting : bool;
  trace : list event
}.

(** [let duration = 20; let timeLeft = duration; let intervalId = null] *)
Definition initial : State :=
  mkState 20 20 None None None ∅ 1%positive false [].

Definition emit (e : event) (st : State) : State :=
  mkState (duration st) (timeLeft st) (intervalId st)
    (countdown_textContent st) (progress_width st) (timers st)
    (next_timer st) (awaiting st) (trace st ++ [e]).

Definition set_duration (d : Z) (st : State) : State :=
  mkState d (timeLeft st) (intervalId st) (countdown_textContent st)
    (progress_width st) (timers st) (next_timer st) (awaiting st) (trace st).

Definition set_timeLeft (t : Z) (st : State) : State :=
  mkState (duration st) t (intervalId st) (countdown_textContent st)
    (progress_width st) (timers st) (next_timer st) (awaiting st) (trace st).

Definition set_countdown (t : Z) (st : State) : State :=
  mkState (duration st) (timeLeft st) (intervalId st) (Some t)
    (progress_width st) (timers st) (next_timer st) (awaiting st) (trace st).

Definition set_progress (p : jsnum) (st : State) : State :=
  mkState (duration st) (timeLeft st) (intervalId st)
    (countdown_textContent st) (Some p) (timers st) (next_timer st)
    (awaiting st) (trace st).

Definition set_awaiting (a : bool) (st : State) : State :=
  mkState (duration st) (timeLeft st) (intervalId st)
    (countdown_textContent st) (progress_width st) (timers st)
    (next_timer st) a (trace st).

(** [intervalId = setInterval(callback, 1000)]: the host hands out a
    fresh, non-zero identifier and keeps the timer alive. *)
Definition setInterval (st : State) : State :=
  let id := next_timer st in
  emit (SetInterval id)
    (mkState (duration st) (timeLeft st) (Some id)
       (countdown_textContent st) (progress_width st)
       ({[id]} ∪ timers st) (Pos.succ id) (awaiting st) (trace st)).

(** [clearInterval(id)]: harmless on [null] and on a dead timer. *)
Definition clearInterval (id : option positive) (st : State) : State :=
  match id with
  | Some i =>
      emit (ClearInterval i)
        (mkState (duration st) (timeLeft st) (intervalId st)
           (countdown_textContent st) (progress_width st)
           (timers st ∖ {[i]}) (next_timer st) (awaiting st) (trace st))
  | None => st
  end.

Definition startCountdown (st : State) : State :=
  setInterval
    (emit (Console LLog "⏱️ Starting countdown:"
             [string_of_Z (timeLeft st); "seconds"]) st).

Definition closeWindow (b : Bridge) (st : State) : State :=
  let st := emit CloseRoutine st in
  if negb (TAURI b) || negb (TAURI_window b) then
    emit (Console LError "❌ Tauri window API not available for closing" []) st
  else
    match getCurrentWindow_throws b with
    | Some error => emit (Console LError "❌ Failed to close window:" [error]) st
    | None =>
        let st := emit (Console LLog "🚪 Closing overlay window" []) st in
        let st := emit CloseRequest st in
        match close_throws b with
        | Some error =>
            emit (Console LError "❌ Failed to close window:" [error]) st
        | None => st
        end
    end.

(** The callback handed to [setInterval]. *)
Definition on_tick (b : Bridge) (st : State) : State :=
  let st := set_timeLeft (timeLeft st - 1) st in
  let st := set_countdown (timeLeft st) st in
  let progress := times (divide (timeLeft st) (duration st)) 100 in
  let st := set_progress progress st in
  if timeLeft st <=? 0 then
    closeWindow b (clearInterval (intervalId st) st)
  else st.

(** The click handler of the skip button. *)
Definition on_skip (b : Bridge) (st : State) : State :=
  let st := emit (Console LLog "⏭️ Skip button clicked" []) st in
  closeWindow b (clearInterval (intervalId st) st).

(** [init] up to its [await]. *)
Definition init (b : Bridge) (st : State) : State :=
  if negb (TAURI b) || negb (TAURI_core b) then
    startCountdown (emit (Console LError "❌ Tauri API not available" []) st)
  else
    set_awaiting true
      (emit (InvokeCall "get_overlay_duration")
         (emit (Console LLog "📞 Calling get_overlay_duration..." []) st)).

(** [init] from its [await] on: the backend answered with a number of
    seconds ([inr]) or the call was rejected ([inl]). *)
Definition init_resume (answer : string + Z) (st : State) : State :=
  let st := set_awaiting false st in
  match answer with
  | inr d =>
      let st := set_duration d st in
      let st := emit (Console LLog "✅ Got duration:" [string_of_Z d]) st in
      let st := set_timeLeft (duration st) st in
      let st := set_countdown (timeLeft st) st in
      let st := set_progress (Fin 100) st in
      startCountdown st
  | inl error =>
      startCountdown
        (emit (Console LError "❌ Failed to get duration:" [error]) st)
  end.

(** What can happen to the page once it is loaded. *)
Inductive input : Type :=
| Reply (answer : string + Z)     (* the pending [invoke] settles *)
| Tick                            (* a live interval timer fires *)
| Skip.                           (* the skip button is clicked *)

Definition step (b : Bridge) (st : State) (i : input) : State :=
  match i with
  | Reply answer => if awaiting st then init_resume answer st else st
  | Tick => if decide (timers st = ∅) then st else on_tick b st
  | Skip => on_skip b st
  end.

Definition run (b : Bridge) (st : State) (inputs : list input) : State :=
  fold_left (step b) inputs st.

(** The page right after [DOMContentLoaded] has called [init]. *)
Definition boot (b : Bridge) : State := init b initial.

Fixpoint count (p : event -> bool) (l : list event) : nat :=
  match l with
  | e :: l' => (if p e then 1 else 0) + count p l'
  | [] => 0
  end%nat.

Definition is_CloseRoutine (e : event) : bool :=
  match e with CloseRoutine => true | _ => false end.
Definition is_CloseRequest (e : event) : bool :=
  match e with CloseRequest => true | _ => false end.

Definition close_routines (st : State) : nat := count is_CloseRoutine (trace st).
Definition close_requests (st : State) : nat := count is_CloseRequest (trace st).

(** [timeLeft / duration], the ratio behind the progress bar. *)
Definition ratio (st : State) : jsnum := divide (timeLeft st) (duration st).

(** *** The states of the countdown, read off the variables *)

(** Counting: [startCountdown] has run and its timer is alive. *)
Definition counting (st : State) : Prop :=
  exists id, intervalId st = Some id /\ timers st = {[id]} /\ awaiting st = false.

(** A countdown that has just been started with [d] seconds. *)
Definition started_with (d : Z) (st : State) : Prop :=
  counting st /\ duration st = d /\ timeLeft st = d /\ close_routines st = 0%nat.

(** Closing: the timer that [startCountdown] created has been cancelled. *)
Definition closing (st : State) : Prop :=
  intervalId st <> None /\ timers st = ∅ /\ awaiting st = false.

Definition is_Skip (i : input) : bool :=
  match i with Skip => true | _ => false end.

Definition skips (inputs : list input) : nat :=
  length (List.filter is_Skip inputs).

Definition ticks (n : nat) : list input := repeat Tick n.

(** The window API is there and does not throw before [close()]. *)
Definition window_api (b : Bridge) : Prop :=
  TAURI b = true /\ TAURI_window b = true /\ getCurrentWindow_throws b = None.

(** *** Vocabulary for the further properties *)

Definition is_SetInterval (e : event) : bool :=
  match e with SetInterval _ => true | _ => false end.

Definition set_intervals (st : State) : nat := count is_SetInterval (trace st).

(** What the page can be after any sequence of inputs: still waiting for
    the duration, with no timer yet, or past [startCountdown], whose
    timer is the first the host has handed out. *)
Definition well_formed (st : State) : Prop :=
  (awaiting st = true /\ intervalId st = None /\ timers st = ∅ /\
   next_timer st = 1%positive /\ set_intervals st = 0%nat) \/
  (awaiting st = false /\ intervalId st = Some 1%positive /\
   (timers st = {[1%positive]} \/ timers st = ∅) /\
   set_intervals st = 1%nat).

End Overlay.


(* ===================================================================== *)
(** ** The status line and its time-outs, [showStatus] in [src/settings.js] *)
(* ===================================================================== *)

(** [showStatus] as a whole: besides setting the message it asks the host
    to blank the line 3000 ms later.  Time is the clock of the page in
    milliseconds; the host runs a time-out callback once its due time has
    come. *)

Module StatusLine.

Record Line : Type := mkLine {
  textContent : string;
  className : string;
  timeouts : list Z                  (* due times of the pending callbacks *)
}.

(** [showStatus(message, type)] called at time [now]. *)
Definition showStatus (now : Z) (message type : string) (l : Line) : Line :=
  mkLine message type (timeouts l ++ [now + 3000]).

(** The callback handed to [setTimeout]. *)
Definition blank (l : Line) : Line := mkLine "" "" (timeouts l).

(** The host at time [now]: every callback that is due runs and is
    forgotten. *)
Fixpoint fire (now : Z) (pending : list Z) (l : Line) : Line :=
  match pending with
  | due :: rest =>
      if due <=? now then fire now rest (blank l)
      else
        let l' := fire now rest l in
        mkLine (textContent l') (className l') (due :: timeouts l')
  | [] => mkLine (textContent l) (className l) []
  end.

Definition advance (now : Z) (l : Line) : Line := fire now (timeouts l) l.

Definition shown (l : Line) : string * string := (textContent l, className l).

End StatusLine.

(* ===================================================================== *)
(** ** Reading back a printed integer *)
(* ===================================================================== *)

Section ParseInt.
Import Js.

(** Evaluates [digit_of] on the character at the head of a numeral. *)
Ltac read_digit :=
  first [ change (digit_of _) with (Some 0) | change (digit_of _) with (Some 1)
        | change (digit_of _) with (Some 2) | change (digit_of _) with (Some 3)
        | change (digit_of _) with (Some 4) | change (digit_of _) with (Some 5)
        | change (digit_of _) with (Some 6) | change (digit_of _) with (Some 7)
        | change (digit_of _) with (Some 8) | change (digit_of _) with (Some 9) ];
  unfold from_option, id.

Lemma digits_of_uint_acc (d : Decimal.uint) (acc : positive) :
  digits (NilEmpty.string_of_uint d) (Some (Z.pos acc)) =
  Some (Z.pos (Pos.of_uint_acc d acc)).
Proof.
  revert acc.
  induction d as [|d IH|d IH|d IH|d IH|d IH|d IH|d IH|d IH|d IH|d IH];
    intros acc; cbn [NilEmpty.string_of_uint digits Pos.of_uint_acc];
    [reflexivity|..]; read_digit; rewrite <- IH; do 2 f_equal; lia.
Qed.

Lemma digits_of_uint (d : Decimal.uint) :
  digits (NilEmpty.string_of_uint d) (Some 0) = Some (Z.of_N (Pos.of_uint d)).
Proof.
  induction d as [|d IH|d IH|d IH|d IH|d IH|d IH|d IH|d IH|d IH|d IH];
    cbn [NilEmpty.string_of_uint digits Pos.of_uint];
    [reflexivity|..]; read_digit; cbn [Z.mul Z.add];
    first [ exact IH | apply digits_of_uint_acc ].
Qed.

(** A non-empty numeral is read in full, leading zeros included. *)
Lemma digits_fresh (d : Decimal.uint) :
  d <> Decimal.Nil ->
  digits (NilEmpty.string_of_uint d) None = Some (Z.of_N (Pos.of_uint d)).
Proof.
  destruct d; intros Hd; try congruence;
    cbn [NilEmpty.string_of_uint digits Pos.of_uint];
    read_digit; cbn [Z.mul Z.add];
    first [ apply digits_of_uint | apply digits_of_uint_acc ].
Qed.

(** The first character of a printed positive number is a digit. *)
Lemma head_of_uint (p : positive) :
  exists c s, NilEmpty.string_of_uint (Pos.to_uint p) = String c s /\
              digit_of c <> None.
Proof.
  pose proof (Unsigned.to_uint_nonnil p) as Hn.
  destruct (Pos.to_uint p); try congruence;
    cbn [NilEmpty.string_of_uint]; eexists _, _; (split; [reflexivity|]);
    read_digit; discriminate.
Qed.

Lemma digit_not_space (c : ascii) : digit_of c <> None -> is_space c = false.
Proof.
  unfold digit_of, is_space.
  destruct (_ && _) eqn:E; [intros _|congruence].
  apply andb_true_iff in E as [E1 E2].
  apply Z.leb_le in E1. apply Z.leb_le in E2.
  apply orb_false_iff; split.
  - apply andb_false_iff; right. apply Nat.leb_gt. lia.
  - apply Nat.eqb_neq. lia.
Qed.

Lemma digit_not_sign (c : ascii) :
  digit_of c <> None -> c <> "-"%char /\ c <> "+"%char.
Proof. intros H; split; intros ->; apply H; reflexivity. Qed.

Lemma parseInt_unsigned (u : Decimal.uint) (c : ascii) (s : string) :
  NilEmpty.string_of_uint u = String c s -> digit_of c <> None ->
  parseInt (NilEmpty.string_of_uint u) = Some (Z.of_N (Pos.of_uint u)).
Proof.
  intros Hs Hc. unfold parseInt.
  assert (Hu : u <> Decimal.Nil) by (intros ->; discriminate).
  rewrite <- (digits_fresh u Hu). rewrite Hs.
  cbn [trimStart]. rewrite (digit_not_space c Hc).
  destruct (digit_not_sign c Hc) as [Hm Hp].
  destruct c as [[] [] [] [] [] [] [] []]; try reflexivity; congruence.
Qed.

(** [parseInt(String(z), 10) === z] for every integer [z]. *)
Lemma parseInt_string_of_Z (z : Z) : parseInt (string_of_Z z) = Some z.
Proof.
  unfold string_of_Z. destruct z as [|p|p]; [reflexivity|..];
    cbn [Z.to_int NilZero.string_of_int];
    destruct (head_of_uint p) as (c & s & Hs & Hc);
    pose proof (Unsigned.to_uint_nonnil p) as Hn;
    assert (Hv : Z.of_N (Pos.of_uint (Pos.to_uint p)) = Z.pos p)
      by (change (Pos.of_uint (Pos.to_uint p)) with (N.of_uint (N.to_uint (N.pos p)));
          rewrite DecimalN.Unsigned.of_to; reflexivity).
  - unfold NilZero.string_of_uint.
    destruct (Pos.to_uint p) eqn:E; try congruence;
      rewrite <- E in *; rewrite (parseInt_unsigned _ c s Hs Hc); congruence.
  - unfold NilZero.string_of_uint.
    assert (Hd : digits (NilEmpty.string_of_uint (Pos.to_uint p)) None
                 = Some (Z.pos p)) by (rewrite digits_fresh; congruence).
    destruct (Pos.to_uint p) eqn:E; try congruence; rewrite <- E in *;
      unfold parseInt; cbn [trimStart]; change (is_space "-") with false;
      cbn iota; rewrite Hd; reflexivity.
Qed.

(** Reading stops at the first character that is not a digit. *)
Lemma digits_stop (s : string) (acc : option Z) :
  no_digit_ahead s = true -> digits s acc = acc.
Proof.
  destruct s as [|c s]; [reflexivity|]. cbn [no_digit_ahead digits].
  destruct (digit_of c); [discriminate|reflexivity].
Qed.

Lemma digits_suffix (u : Decimal.uint) (s : string) (acc : option Z) :
  no_digit_ahead s = true ->
  digits (NilEmpty.string_of_uint u +:+ s) acc =
  digits (NilEmpty.string_of_uint u) acc.
Proof.
  intros Hs. revert acc.
  induction u as [|u IH|u IH|u IH|u IH|u IH|u IH|u IH|u IH|u IH|u IH];
    intros acc; cbn [NilEmpty.string_of_uint String.append digits];
    [apply digits_stop, Hs|..]; read_digit; apply IH.
Qed.

Lemma trimStart_numeral (c : ascii) (s : string) :
  digit_of c <> None \/ c = "-"%char -> trimStart (String c s) = String c s.
Proof.
  intros [Hc| ->]; cbn [trimStart]; [rewrite (digit_not_space c Hc)|];
    reflexivity.
Qed.

Lemma parseInt_digit_head (c : ascii) (t : string) :
  digit_of c <> None -> parseInt (String c t) = digits (String c t) None.
Proof.
  intros Hc. unfold parseInt.
  rewrite trimStart_numeral by (left; exact Hc).
  destruct c as [[] [] [] [] [] [] [] []]; try reflexivity;
    exfalso; apply Hc; reflexivity.
Qed.

(** What follows the number does not count: [parseInt("45 minutes", 10)]
    is 45. *)
Lemma parseInt_suffix (z : Z) (s : string) :
  no_digit_ahead s = true -> parseInt (string_of_Z z +:+ s) = Some z.
Proof.
  intros Hs. pose proof (parseInt_string_of_Z z) as Hz. revert Hz.
  unfold string_of_Z. destruct z as [|p|p];
    cbn [Z.to_int NilZero.string_of_int].
  - intros _.
    change (NilZero.string_of_uint (Decimal.D0 Decimal.Nil) +:+ s)
      with (String "0" s).
    rewrite parseInt_digit_head by discriminate.
    change (digits (String "0" s) None) with (digits s (Some 0)).
    rewrite digits_stop by assumption. reflexivity.
  - unfold NilZero.string_of_uint.
    destruct (head_of_uint p) as (c & r & Hr & Hc).
    pose proof (Unsigned.to_uint_nonnil p) as Hn.
    destruct (Pos.to_uint p) eqn:E; try congruence; rewrite <- E in *;
      intros Hz; rewrite Hr in Hz;
      rewrite parseInt_digit_head in Hz by exact Hc;
      rewrite <- Hr in Hz; rewrite <- Hz;
      rewrite <- (digits_suffix _ s None Hs);
      rewrite Hr; cbn [String.append]; apply parseInt_digit_head, Hc.
  - unfold NilZero.string_of_uint.
    pose proof (Unsigned.to_uint_nonnil p) as Hn.
    destruct (Pos.to_uint p) eqn:E; try congruence; rewrite <- E in *;
      intros Hz;
      change (parseInt (String "-" (NilEmpty.string_of_uint (Pos.to_uint p) +:+ s))
              = Some (Z.neg p));
      unfold parseInt in *; cbn [trimStart] in *;
      change (is_space "-") with false in *; cbn iota in *;
      rewrite digits_suffix by assumption; exact Hz.
Qed.

End ParseInt.

(* ===================================================================== *)
(** ** Properties of the settings window *)
(* ===================================================================== *)

Section SettingsProperties.
Import Js Settings.

(** Unfolds the script and the control operators down to the world
    record, leaving the store map, [parseInt] and the host untouched. *)
Ltac script :=
  cbv beta iota zeta delta
    [saveSettings loadSettings ensureStore initStore showStatus
     Store_load Store_get Store_set Store_save await console
     bind try_catch ret modify reads exec status form snd fst
     with_settingsStore with_store_mem with_store_disk with_inputs
     with_status with_event
     settingsStore store_mem store_disk intervalInput_value
     durationInput_value autostartInput_checked
     statusMessage_textContent statusMessage_className trace
     store_reachable negb id].

(** Decides the next call the host is asked about. *)
Ltac answer h :=
  match goal with
  | H : h ?c = _ |- context [h ?c] => rewrite H; script
  | |- context [match h ?c with _ => _ end] => destruct (h c) eqn:?; script
  end.

(** Brings a trace to the form [old ++ [e1; ...; en]]. *)
Ltac flatten := repeat rewrite <- app_assoc; cbn [app].

(** Finds an event among the new ones. *)
Ltac recorded :=
  flatten; apply in_or_app; right;
  solve [repeat (first [left; reflexivity | right])].

Lemma rejected_false (x : option Z) (lo hi : Z) :
  rejected x lo hi = false <-> exists z, x = Some z /\ lo <= z <= hi.
Proof.
  unfold rejected. destruct x as [z|].
  - rewrite orb_false_iff, Z.ltb_ge, Z.gtb_ltb, Z.ltb_ge.
    split; [intros [? ?]; exists z; split; [reflexivity|lia]
           |intros (z' & [= <-] & ?); lia].
  - split; [discriminate|intros (? & ? & _); discriminate].
Qed.

Lemma accepted (z lo hi : Z) : lo <= z <= hi -> rejected (Some z) lo hi = false.
Proof. intros H. apply rejected_false. eauto. Qed.

(** The form after [loadSettings] when the store answers: every field
    comes from its own key alone. *)
Lemma loadSettings_form (h : host) (w : World) :
  store_answers h ->
  form (exec (loadSettings h) w) =
  (value_setter (nullish (default JUndefined (store_mem w !! "intervalMinutes")) (JNum 20)),
   value_setter (nullish (default JUndefined (store_mem w !! "overlayDurationSeconds")) (JNum 20)),
   ToBoolean (nullish (default JUndefined (store_mem w !! "autoStart")) (JBool false))).
Proof.
  intros (Hload & Hget & _ & _).
  destruct w as [ss mem disk iv dv chk st sc tr].
  destruct ss; script; rewrite ?Hload; script;
    repeat (rewrite Hget; script); reflexivity.
Qed.

(** C9.  [loadSettings] reads the keys [intervalMinutes],
    [overlayDurationSeconds] and [autoStart] from the store, and a key
    that is missing defaults on its own, to 20, 20 and [false], whatever
    the other two keys hold; a key that is present shows its value. *)
Theorem C9_load_partial_defaults (h : host) (w : World) :
  store_answers h ->
  let w' := exec (loadSettings h) w in
  (store_mem w !! "intervalMinutes" = None -> intervalInput_value w' = "20") /\
  (store_mem w !! "overlayDurationSeconds" = None -> durationInput_value w' = "20") /\
  (store_mem w !! "autoStart" = None -> autostartInput_checked w' = false) /\
  (forall z, store_mem w !! "intervalMinutes" = Some (JNum z) ->
             intervalInput_value w' = string_of_Z z) /\
  (forall z, store_mem w !! "overlayDurationSeconds" = Some (JNum z) ->
             durationInput_value w' = string_of_Z z) /\
  (forall b, store_mem w !! "autoStart" = Some (JBool b) ->
             autostartInput_checked w' = b) /\
  (forall key, In key ["intervalMinutes"; "overlayDurationSeconds"; "autoStart"] ->
               In (Called (StoreGet key) None) (trace w')).
Proof.
  intros Hh w'. pose proof (loadSettings_form h w Hh) as Hf.
  fold w' in Hf. unfold form in Hf. injection Hf as Hi Hd Ha.
  repeat split.
  - intros E. rewrite Hi, E. reflexivity.
  - intros E. rewrite Hd, E. reflexivity.
  - intros E. rewrite Ha, E. reflexivity.
  - intros z E. rewrite Hi, E. reflexivity.
  - intros z E. rewrite Hd, E. reflexivity.
  - intros b E. rewrite Ha, E. reflexivity.
  - intros key Hk. subst w'. destruct Hh as (Hload & Hget & _ & _).
    destruct w as [ss mem disk iv dv chk st sc tr].
    destruct ss; script; rewrite ?Hload; script;
      repeat (rewrite Hget; script);
      cbn [In] in Hk; destruct Hk as [<-|[<-|[<-|[]]]]; recorded.
Qed.

(** A store that holds [autoStart] but no [intervalMinutes]. *)
Lemma C9_load_partial_defaults_witness :
  let w := mkWorld true {["autoStart" := JBool true]} ∅ "" "" false "" "" [] in
  form (exec (loadSettings (fun _ => None)) w) = ("20", "20", true).
Proof.
  intros w.
  assert (Hh : store_answers (fun _ => None)) by (repeat split).
  destruct (C9_load_partial_defaults (fun _ => None) w Hh)
    as (Hi & Hd & _ & _ & _ & Ha & _).
  unfold form. rewrite Hi, Hd, (Ha true); reflexivity.
Defined.

(** Where a save of accepted values leaves the store, provided the
    store answers: the three keys are written and committed. *)
Lemma saveSettings_store (h : host) (w : World) (i d : Z) :
  parseInt (intervalInput_value w) = Some i ->
  parseInt (durationInput_value w) = Some d ->
  1 <= i <= 180 -> 5 <= d <= 300 ->
  store_answers h ->
  let w' := exec (saveSettings h) w in
  store_mem w' =
    <["autoStart" := JBool (autostartInput_checked w)]>
      (<["overlayDurationSeconds" := JNum d]>
         (<["intervalMinutes" := JNum i]> (store_mem w))) /\
  store_disk w' = store_mem w' /\
  settingsStore w' = true /\
  form w' = form w.
Proof.
  intros Hi Hd Ri Rd (Hload & _ & Hset & Hsave).
  destruct w as [ss mem disk iv dv chk st sc tr].
  cbv [intervalInput_value durationInput_value] in Hi, Hd.
  destruct ss, chk; script; rewrite ?Hload; script;
    rewrite Hi, Hd, (accepted i 1 180 Ri), (accepted d 5 300 Rd); script;
    repeat (rewrite Hset; script); rewrite Hsave; script;
    repeat answer h; auto.
Qed.

(** C1.  For every interval in [1,180] and duration in [5,300] (as
    [parseInt] reads them from the form) and a store that answers,
    [saveSettings] writes [intervalMinutes], [overlayDurationSeconds] and
    [autoStart] and commits them, reports success once the timer is
    restarted, and a following [loadSettings] shows exactly the interval,
    the duration and the autostart choice that were saved. *)
Theorem C1_save_then_load (h h' : host) (w : World) (i d : Z) :
  parseInt (intervalInput_value w) = Some i ->
  parseInt (durationInput_value w) = Some d ->
  1 <= i <= 180 -> 5 <= d <= 300 ->
  store_answers h -> store_answers h' ->
  let w1 := exec (saveSettings h) w in
  let w2 := exec (loadSettings h') w1 in
  (store_mem w1 !! "intervalMinutes" = Some (JNum i) /\
   store_mem w1 !! "overlayDurationSeconds" = Some (JNum d) /\
   store_mem w1 !! "autoStart" = Some (JBool (autostartInput_checked w))) /\
  store_disk w1 = store_mem w1 /\
  (In (Called (StoreSet "intervalMinutes" (JNum i)) None) (trace w1) /\
   In (Called (StoreSet "overlayDurationSeconds" (JNum d)) None) (trace w1) /\
   In (Called (StoreSet "autoStart" (JBool (autostartInput_checked w))) None) (trace w1) /\
   In (Called StoreSave None) (trace w1)) /\
  (h (Invoke "restart_timer") = None ->
   status w1 = ("Settings saved successfully!", "success")) /\
  form w2 = (string_of_Z i, string_of_Z d, autostartInput_checked w) /\
  parseInt (intervalInput_value w2) = Some i /\
  parseInt (durationInput_value w2) = Some d.
Proof.
  intros Hi Hd Ri Rd Hh Hh' w1 w2.
  destruct (saveSettings_store h w i d Hi Hd Ri Rd Hh) as (Hm & Hk & _ & _).
  fold w1 in Hm, Hk.
  assert (Li : store_mem w1 !! "intervalMinutes" = Some (JNum i))
    by (rewrite Hm; by simplify_map_eq).
  assert (Ld : store_mem w1 !! "overlayDurationSeconds" = Some (JNum d))
    by (rewrite Hm; by simplify_map_eq).
  assert (La : store_mem w1 !! "autoStart" = Some (JBool (autostartInput_checked w)))
    by (rewrite Hm; by simplify_map_eq).
  assert (Hf : form w2 = (string_of_Z i, string_of_Z d, autostartInput_checked w)).
  { unfold w2. rewrite (loadSettings_form h' w1 Hh'), Li, Ld, La. reflexivity. }
  split; [auto|]. split; [exact Hk|]. split; [|split; [|split; [exact Hf|]]].
  - subst w1 w2. clear Hm Hk Li Ld La Hf.
    destruct Hh as (Hload & _ & Hset & Hsave).
    destruct w as [ss mem disk iv dv chk st sc tr].
    cbv [intervalInput_value durationInput_value] in Hi, Hd.
    destruct ss, chk; script; rewrite ?Hload; script;
      rewrite Hi, Hd, (accepted i 1 180 Ri), (accepted d 5 300 Rd); script;
      repeat (rewrite Hset; script); rewrite Hsave; script;
      repeat answer h; repeat split; recorded.
  - intros Hr. subst w1 w2. clear Hm Hk Li Ld La Hf.
    destruct Hh as (Hload & _ & Hset & Hsave).
    destruct w as [ss mem disk iv dv chk st sc tr].
    cbv [intervalInput_value durationInput_value] in Hi, Hd.
    destruct ss, chk; script; rewrite ?Hload; script;
      rewrite Hi, Hd, (accepted i 1 180 Ri), (accepted d 5 300 Rd); script;
      repeat (rewrite Hset; script); rewrite Hsave; script;
      repeat answer h; reflexivity.
  - unfold form in Hf. injection Hf as -> -> _.
    split; apply parseInt_string_of_Z.
Qed.

(** The form reads 45 minutes, 300 seconds, no autostart; the host
    answers every call. *)
Lemma C1_save_then_load_witness :
  let w := mkWorld false ∅ ∅ "45" "300" false "" "" [] in
  let w1 := exec (saveSettings (fun _ => None)) w in
  store_disk w1 = store_mem w1 /\
  status w1 = ("Settings saved successfully!", "success") /\
  form (exec (loadSettings (fun _ => None)) w1) = ("45", "300", false).
Proof.
  intros w w1.
  assert (Hh : store_answers (fun _ => None)) by (repeat split).
  destruct (C1_save_then_load (fun _ => None) (fun _ => None) w 45 300
              eq_refl eq_refl ltac:(lia) ltac:(lia) Hh Hh)
    as (_ & Hk & _ & Hs & Hf & _).
  split; [exact Hk|]. split; [exact (Hs eq_refl)|exact Hf].
Defined.

(** What a rejected value does, whichever test rejects it: the status
    line names the first field that fails its test, and the store is
    not touched. *)
Lemma saveSettings_rejected (h : host) (w : World) :
  let interval := parseInt (intervalInput_value w) in
  let duration := parseInt (durationInput_value w) in
  rejected interval 1 180 = true \/ rejected duration 5 300 = true ->
  let w' := exec (saveSettings h) w in
  (store_reachable h w ->
   status w' =
     if rejected interval 1 180
     then ("Interval must be between 1-180 minutes", "error")
     else ("Duration must be between 5-300 seconds", "error")) /\
  store_mem w' = store_mem w /\
  store_disk w' = store_disk w /\
  List.filter is_store_write (trace w') = List.filter is_store_write (trace w) /\
  form w' = form w.
Proof.
  intros interval duration Hrej w'. subst interval duration w'.
  destruct w as [ss mem disk iv dv chk st sc tr].
  cbv [intervalInput_value durationInput_value] in Hrej.
  destruct ss; script;
    [|destruct (h (StoreLoad "settings.json")) eqn:Hl; script];
    try (destruct (rejected (parseInt iv) 1 180) eqn:Ei; script;
         [|destruct (rejected (parseInt dv) 5 300) eqn:Ed; script;
           [|destruct Hrej; discriminate]]);
    (split; [intros [?|?]; congruence|]);
    (split; [reflexivity|]); (split; [reflexivity|]);
    (split; [|reflexivity]);
    flatten; rewrite List.filter_app; cbn; apply app_nil_r.
Qed.

(** After a rejected save the form that [loadSettings] fills in is the
    one it would have filled in before. *)
Lemma load_after_rejected (h h' : host) (w : World) :
  rejected (parseInt (intervalInput_value w)) 1 180 = true \/
  rejected (parseInt (durationInput_value w)) 5 300 = true ->
  store_answers h' ->
  form (exec (loadSettings h') (exec (saveSettings h) w)) =
  form (exec (loadSettings h') w).
Proof.
  intros Hrej Hh'. rewrite !loadSettings_form by assumption.
  destruct (saveSettings_rejected h w Hrej) as (_ & -> & _). reflexivity.
Qed.

(** C2.  When the interval read from the form is a number outside
    [1,180], or the duration a number outside [5,300], [saveSettings]
    ends with an error status that names the field and its range (the
    interval when it is at fault, else the duration), no store write
    is made at all, the stored and the committed values stay as they
    were, and a following [loadSettings] shows what it showed before. *)
Theorem C2_out_of_range_rejected (h h' : host) (w : World) :
  let interval := parseInt (intervalInput_value w) in
  let duration := parseInt (durationInput_value w) in
  (exists i, interval = Some i /\ (i < 1 \/ 180 < i)) \/
  (exists d, duration = Some d /\ (d < 5 \/ 300 < d)) ->
  let w' := exec (saveSettings h) w in
  (store_reachable h w ->
   status w' =
     if rejected interval 1 180
     then ("Interval must be between 1-180 minutes", "error")
     else ("Duration must be between 5-300 seconds", "error")) /\
  List.filter is_store_write (trace w') = List.filter is_store_write (trace w) /\
  store_mem w' = store_mem w /\
  store_disk w' = store_disk w /\
  (store_answers h' ->
   form (exec (loadSettings h') w') = form (exec (loadSettings h') w)).
Proof.
  intros interval duration Hout w'.
  assert (Hrej : rejected interval 1 180 = true \/ rejected duration 5 300 = true).
  { destruct Hout as [(i & -> & Hi)|(d & -> & Hd)]; [left|right];
      unfold rejected; apply orb_true_iff;
      rewrite Z.ltb_lt, Z.gtb_ltb, Z.ltb_lt; lia. }
  destruct (saveSettings_rejected h w Hrej) as (Hs & Hm & Hd & Hw & _).
  repeat split; try assumption.
  intros Hh'. apply load_after_rejected; assumption.
Qed.

(** An interval of 200 minutes against a store that already holds 20. *)
Lemma C2_out_of_range_rejected_witness :
  let w := mkWorld true {["intervalMinutes" := JNum 20]}
             {["intervalMinutes" := JNum 20]} "200" "30" true "" "" [] in
  let w' := exec (saveSettings (fun _ => None)) w in
  status w' = ("Interval must be between 1-180 minutes", "error") /\
  store_mem w' = store_mem w /\
  form (exec (loadSettings (fun _ => None)) w') = ("20", "20", false).
Proof.
  intros w w'.
  assert (Hout : (exists i, parseInt (intervalInput_value w) = Some i /\
                            (i < 1 \/ 180 < i)) \/
                 (exists d, parseInt (durationInput_value w) = Some d /\
                            (d < 5 \/ 300 < d)))
    by (left; exists 200; split; [reflexivity|lia]).
  destruct (C2_out_of_range_rejected (fun _ => None) (fun _ => None) w Hout)
    as (Hs & _ & Hm & _ & Hl).
  split; [apply Hs; left; reflexivity|]. split; [exact Hm|].
  subst w'. rewrite Hl by (repeat split). reflexivity.
Defined.

(** C10.  When [parseInt] gives [NaN] for the interval or for the
    duration, [saveSettings] ends with the same inline error status as
    for a number out of range, and makes no store write. *)
Theorem C10_not_a_number_rejected (h h' : host) (w : World) :
  let interval := parseInt (intervalInput_value w) in
  let duration := parseInt (durationInput_value w) in
  interval = None \/ duration = None ->
  let w' := exec (saveSettings h) w in
  (store_reachable h w ->
   status w' =
     if rejected interval 1 180
     then ("Interval must be between 1-180 minutes", "error")
     else ("Duration must be between 5-300 seconds", "error")) /\
  (interval = None -> store_reachable h w ->
   status w' = ("Interval must be between 1-180 minutes", "error")) /\
  List.filter is_store_write (trace w') = List.filter is_store_write (trace w) /\
  store_mem w' = store_mem w /\
  store_disk w' = store_disk w /\
  (store_answers h' ->
   form (exec (loadSettings h') w') = form (exec (loadSettings h') w)).
Proof.
  intros interval duration Hnan w'.
  assert (Hrej : rejected interval 1 180 = true \/ rejected duration 5 300 = true)
    by (destruct Hnan as [-> | ->]; [left|right]; reflexivity).
  destruct (saveSettings_rejected h w Hrej) as (Hs & Hm & Hd & Hw & _).
  repeat split; try assumption.
  - intros Hi Hr. unfold w'. rewrite (Hs Hr).
    unfold interval in Hi |- *. rewrite Hi. reflexivity.
  - intros Hh'. apply load_after_rejected; assumption.
Qed.

(** An empty interval field, and a duration that is not a number. *)
Lemma C10_not_a_number_rejected_witness :
  (let w := mkWorld true ∅ ∅ "" "30" false "" "" [] in
   let w' := exec (saveSettings (fun _ => None)) w in
   status w' = ("Interval must be between 1-180 minutes", "error") /\
   store_mem w' = ∅) /\
  (let w := mkWorld true ∅ ∅ "45" "soon" false "" "" [] in
   let w' := exec (saveSettings (fun _ => None)) w in
   status w' = ("Duration must be between 5-300 seconds", "error") /\
   store_mem w' = ∅).
Proof.
  split; intros w w'.
  - destruct (C10_not_a_number_rejected (fun _ => None) (fun _ => None) w
                (or_introl eq_refl)) as (Hs & _ & _ & Hm & _).
    split; [apply Hs; left; reflexivity|exact Hm].
  - destruct (C10_not_a_number_rejected (fun _ => None) (fun _ => None) w
                (or_intror eq_refl)) as (Hs & _ & _ & Hm & _).
    split; [apply Hs; left; reflexivity|exact Hm].
Defined.

(** Walks through [saveSettings] in program order, splitting on every
    answer of the host and on both range tests. *)
Ltac paths h :=
  script;
  try match goal with
      | |- context [h (StoreLoad ?p)] => destruct (h (StoreLoad p)) eqn:?; script
      end;
  try match goal with
      | |- context [rejected ?x 1 180] => destruct (rejected x 1 180) eqn:?; script
      end;
  try match goal with
      | |- context [rejected ?x 5 300] => destruct (rejected x 5 300) eqn:?; script
      end;
  try match goal with
      | |- context [h (StoreSet "intervalMinutes" ?v)] =>
          destruct (h (StoreSet "intervalMinutes" v)) eqn:?; script
      end;
  try match goal with
      | |- context [h (StoreSet "overlayDurationSeconds" ?v)] =>
          destruct (h (StoreSet "overlayDurationSeconds" v)) eqn:?; script
      end;
  try match goal with
      | |- context [h (StoreSet "autoStart" ?v)] =>
          destruct (h (StoreSet "autoStart" v)) eqn:?; script
      end;
  try match goal with
      | |- context [h StoreSave] => destruct (h StoreSave) eqn:?; script
      end;
  try match goal with
      | |- context [h AutostartEnable] => destruct (h AutostartEnable) eqn:?; script
      | |- context [h AutostartDisable] => destruct (h AutostartDisable) eqn:?; script
      end;
  try match goal with
      | |- context [h (Invoke ?c)] => destruct (h (Invoke c)) eqn:?; script
      end.

Lemma rearm_follows_commit_sound (l : list event) (committed : bool) :
  rearm_follows_commit committed l = true ->
  forall pre r post,
    l = pre ++ Called (Invoke "restart_timer") r :: post ->
    committed = true \/ In (Called StoreSave None) pre.
Proof.
  revert committed. induction l as [|e l IH]; intros committed Hc pre r post E.
  - destruct pre; discriminate.
  - cbn [rearm_follows_commit] in Hc. apply andb_true_iff in Hc as [Hhead Htail].
    destruct pre as [|e' pre]; cbn [app] in E; injection E as -> ->.
    + left. exact Hhead.
    + destruct (IH _ Htail pre r post eq_refl) as [Hor|Hin].
      * apply orb_true_iff in Hor as [Hor|Hor]; [left; exact Hor|].
        right; left. destruct e' as [| [] [] |]; try discriminate. reflexivity.
      * right; right. exact Hin.
Qed.

(** C6.  In every run of [saveSettings], whatever the host answers, a
    request to restart the timer comes only after a [save()] of the
    store that went through; a rejected value, or a store write or
    commit that fails, leaves the run without any such request. *)
Theorem C6_rearm_follows_commit (h : host) (w : World) :
  let w' := exec (saveSettings h) w in
  let evs := new_events (trace w) w' in
  trace w' = trace w ++ evs /\
  (forall pre r post,
      evs = pre ++ Called (Invoke "restart_timer") r :: post ->
      In (Called StoreSave None) pre) /\
  (rejected (parseInt (intervalInput_value w)) 1 180 = true \/
   rejected (parseInt (durationInput_value w)) 5 300 = true ->
   existsb is_rearm evs = false) /\
  (existsb is_failed_write evs = true -> existsb is_rearm evs = false).
Proof.
  intros w' evs.
  assert (Hshape : trace w' = trace w ++ evs /\
                   rearm_follows_commit false evs = true /\
                   (rejected (parseInt (intervalInput_value w)) 1 180 = true \/
                    rejected (parseInt (durationInput_value w)) 5 300 = true ->
                    existsb is_rearm evs = false) /\
                   (existsb is_failed_write evs = true ->
                    existsb is_rearm evs = false)).
  { subst evs w'. unfold new_events.
    destruct w as [ss mem disk iv dv chk st sc tr].
    destruct ss, chk; paths h; flatten; rewrite drop_app_length;
      (split; [reflexivity|]); (split; [reflexivity|]);
      split; cbn [existsb is_rearm is_failed_write orb String.eqb];
      intros; try reflexivity; try discriminate;
      intuition congruence. }
  destruct Hshape as (Ht & Hc & Hr & Hf).
  repeat split; try assumption.
  intros pre r post E.
  destruct (rearm_follows_commit_sound evs false Hc pre r post E);
    [discriminate|assumption].
Qed.

(** Cuts a list of events that is known in full after its [n]-th. *)
Ltac cut_at n :=
  match goal with
  | |- ex (fun pre => ex (fun post => ?l = _ /\ _)) =>
      exists (take n l), (drop (S n) l); cbn [take drop];
      split; [reflexivity|]
  end.

Ltac cut_where tac :=
  first [ cut_at 0%nat; tac | cut_at 1%nat; tac | cut_at 2%nat; tac
        | cut_at 3%nat; tac | cut_at 4%nat; tac | cut_at 5%nat; tac
        | cut_at 6%nat; tac | cut_at 7%nat; tac | cut_at 8%nat; tac
        | cut_at 9%nat; tac | cut_at 10%nat; tac | cut_at 11%nat; tac
        | cut_at 12%nat; tac | cut_at 13%nat; tac | cut_at 14%nat; tac ].

Ltac listed := solve [repeat (first [left; reflexivity | right])].

(** C5.  When the operating system refuses the [enable()] or
    [disable()] call, [saveSettings] writes one warning and goes on: the
    settings were committed before the call, the timer restart is
    requested after it, and once that request is answered the status
    reports success and no error line has been written. *)
Theorem C5_autostart_failure_not_fatal
    (h : host) (w : World) (i d : Z) (e : string) :
  parseInt (intervalInput_value w) = Some i ->
  parseInt (durationInput_value w) = Some d ->
  1 <= i <= 180 -> 5 <= d <= 300 ->
  store_answers h ->
  h (if autostartInput_checked w then AutostartEnable else AutostartDisable)
    = Some e ->
  let w' := exec (saveSettings h) w in
  let evs := new_events (trace w) w' in
  (exists pre post,
      evs = pre ++ Console LWarn "⚠️ Autostart setting failed:" [e] :: post /\
      In (Called StoreSave None) pre /\
      In (Called (Invoke "restart_timer") (h (Invoke "restart_timer"))) post) /\
  store_disk w' = store_mem w' /\
  (store_mem w' !! "intervalMinutes" = Some (JNum i) /\
   store_mem w' !! "overlayDurationSeconds" = Some (JNum d) /\
   store_mem w' !! "autoStart" = Some (JBool (autostartInput_checked w))) /\
  (h (Invoke "restart_timer") = None ->
   status w' = ("Settings saved successfully!", "success") /\
   existsb is_error_line evs = false).
Proof.
  intros Hi Hd Ri Rd Hh Ha w' evs.
  destruct (saveSettings_store h w i d Hi Hd Ri Rd Hh) as (Hm & Hk & _ & _).
  fold w' in Hm, Hk.
  split; [|split; [exact Hk|split; [rewrite Hm; by simplify_map_eq|]]];
    subst evs w'; clear Hm Hk; unfold new_events;
    destruct Hh as (Hload & _ & Hset & Hsave);
    destruct w as [ss mem disk iv dv chk st sc tr];
    cbv [intervalInput_value durationInput_value autostartInput_checked] in Hi, Hd, Ha;
    destruct ss, chk; script; rewrite ?Hload; script;
      rewrite Hi, Hd, (accepted i 1 180 Ri), (accepted d 5 300 Rd); script;
      repeat (rewrite Hset; script); rewrite Hsave; script;
      rewrite Ha; script.
  1-4: destruct (h (Invoke "restart_timer")) eqn:Hr; script;
       flatten; rewrite drop_app_length; cut_where ltac:(split; listed).
  all: intros ->; script; flatten; rewrite drop_app_length;
       split; reflexivity.
Qed.

(** Autostart ticked, and the operating system refuses [enable()]. *)
Lemma C5_autostart_failure_not_fatal_witness :
  let h := fun c => match c with AutostartEnable => Some "denied" | _ => None end in
  let w := mkWorld true ∅ ∅ "45" "300" true "" "" [] in
  let w' := exec (saveSettings h) w in
  status w' = ("Settings saved successfully!", "success") /\
  store_disk w' = store_mem w' /\
  store_mem w' !! "intervalMinutes" = Some (JNum 45).
Proof.
  intros h w w'.
  assert (Hh : store_answers h) by (repeat split).
  destruct (C5_autostart_failure_not_fatal h w 45 300 "denied"
              eq_refl eq_refl ltac:(lia) ltac:(lia) Hh eq_refl)
    as (_ & Hk & (Hi & _) & Hs).
  split; [exact (proj1 (Hs eq_refl))|]. split; [exact Hk|exact Hi].
Defined.

(** C7, as stated, fails.  The same form is saved against two hosts:
    one refuses the timer restart after the commit, the other refuses
    the commit itself, both with the same message.  The first run leaves
    the settings committed and the second does not, yet both report the
    very same thing: the failed restart is shown as an error of saving. *)
Lemma C7_rearm_error_not_distinct :
  let w := mkWorld true ∅ ∅ "45" "300" false "" "" [] in
  let h_rearm := fun c =>
    match c with Invoke _ => Some "refused" | _ => None end in
  let h_commit := fun c =>
    match c with StoreSave => Some "refused" | _ => None end in
  let w_rearm := exec (saveSettings h_rearm) w in
  let w_commit := exec (saveSettings h_commit) w in
  store_disk w_rearm !! "intervalMinutes" = Some (JNum 45) /\
  store_disk w_commit !! "intervalMinutes" = None /\
  report w_rearm = report w_commit /\
  status w_rearm = ("Error saving settings: refused", "error").
Proof. vm_compute. repeat split. Qed.

(** C7, amended.  When the timer restart is refused after the commit,
    the handler of [saveSettings] reports it like any failure of the
    save, as ["Error saving settings: "] followed by the message of the
    error, and the three settings stay written and committed. *)
Theorem C7_rearm_failure_keeps_settings
    (h : host) (w : World) (i d : Z) (e : string) :
  parseInt (intervalInput_value w) = Some i ->
  parseInt (durationInput_value w) = Some d ->
  1 <= i <= 180 -> 5 <= d <= 300 ->
  store_answers h ->
  h (Invoke "restart_timer") = Some e ->
  let w' := exec (saveSettings h) w in
  status w' = ("Error saving settings: " +:+ e, "error") /\
  In (Console LError "❌ Failed to save settings:" [e])
     (new_events (trace w) w') /\
  store_disk w' = store_mem w' /\
  store_disk w' !! "intervalMinutes" = Some (JNum i) /\
  store_disk w' !! "overlayDurationSeconds" = Some (JNum d) /\
  store_disk w' !! "autoStart" = Some (JBool (autostartInput_checked w)).
Proof.
  intros Hi Hd Ri Rd Hh Hr w'.
  destruct (saveSettings_store h w i d Hi Hd Ri Rd Hh) as (Hm & Hk & _ & _).
  fold w' in Hm, Hk.
  split; [|split; [|split; [exact Hk|rewrite Hk, Hm; by simplify_map_eq]]];
    subst w'; clear Hm Hk; unfold new_events;
    destruct Hh as (Hload & _ & Hset & Hsave);
    destruct w as [ss mem disk iv dv chk st sc tr];
    cbv [intervalInput_value durationInput_value] in Hi, Hd;
    destruct ss, chk; script; rewrite ?Hload; script;
      rewrite Hi, Hd, (accepted i 1 180 Ri), (accepted d 5 300 Rd); script;
      repeat (rewrite Hset; script); rewrite Hsave; script;
      repeat answer h;
      first [ reflexivity | flatten; rewrite drop_app_length; listed ].
Qed.

(** The backend refuses [restart_timer]. *)
Lemma C7_rearm_failure_keeps_settings_witness :
  let h := fun c => match c with Invoke _ => Some "refused" | _ => None end in
  let w := mkWorld true ∅ ∅ "45" "300" false "" "" [] in
  let w' := exec (saveSettings h) w in
  status w' = ("Error saving settings: refused", "error") /\
  store_disk w' !! "intervalMinutes" = Some (JNum 45).
Proof.
  intros h w w'.
  assert (Hh : store_answers h) by (repeat split).
  destruct (C7_rearm_failure_keeps_settings h w 45 300 "refused"
              eq_refl eq_refl ltac:(lia) ltac:(lia) Hh eq_refl)
    as (Hs & _ & _ & Hi & _).
  split; [exact Hs|exact Hi].
Defined.

(** A save that goes through: the restart is the tenth event, the
    commit is among the nine before it. *)
Lemma C6_rearm_follows_commit_witness :
  let w := mkWorld true ∅ ∅ "45" "300" false "" "" [] in
  let evs := new_events (trace w) (exec (saveSettings (fun _ => None)) w) in
  nth_error evs 9 = Some (Called (Invoke "restart_timer") None) /\
  In (Called StoreSave None) (take 9 evs).
Proof.
  intros w evs. split; [reflexivity|].
  destruct (C6_rearm_follows_commit (fun _ => None) w) as (_ & Hord & _).
  apply (Hord (take 9 evs) None (drop 10 evs)). reflexivity.
Defined.

(** Identifies the events a handler added, once its trace is known. *)
Ltac added := unfold new_events; cbn [trace]; flatten; rewrite drop_app_length.

(** As [script], and the values read by [parseInt] are taken out of
    their option. *)
Ltac evaluate := script; cbv beta iota delta [from_option].

(** X1.  While the store handle is missing and [Store.load] is rejected,
    neither handler gets past [initStore]: both end with the status
    "Error initializing settings store", the handle stays missing, the
    store and the form are left alone, and the rejected [Store.load] is
    the only call that reached the host. *)
Theorem initStore_failure_stops_handlers (h : host) (w : World) (e : string) :
  settingsStore w = false ->
  h (StoreLoad "settings.json") = Some e ->
  forall handler : M unit,
    handler = saveSettings h \/ handler = loadSettings h ->
    let w' := exec handler w in
    status w' = ("Error initializing settings store", "error") /\
    settingsStore w' = false /\
    store_mem w' = store_mem w /\ store_disk w' = store_disk w /\
    form w' = form w /\
    List.filter is_host_call (new_events (trace w) w') =
      [Called (StoreLoad "settings.json") (Some e)].
Proof.
  intros Hs Hl handler Hh.
  destruct w as [ss mem disk iv dv chk st sc tr]. cbn in Hs. subst ss.
  destruct Hh as [-> | ->]; script; rewrite Hl; script;
    repeat split; try added; reflexivity.
Qed.

Lemma initStore_failure_stops_handlers_witness :
  let h := fun c => match c with StoreLoad _ => Some "no file" | _ => None end in
  let w := mkWorld false ∅ ∅ "45" "300" true "" "" [] in
  status (exec (saveSettings h) w) = ("Error initializing settings store", "error") /\
  store_mem (exec (saveSettings h) w) = ∅.
Proof.
  intros h w.
  destruct (initStore_failure_stops_handlers h w "no file" eq_refl eq_refl
              (saveSettings h) (or_introl eq_refl)) as (Hs & _ & Hm & _).
  split; [exact Hs|exact Hm].
Defined.

(** X2.  When the values pass validation but one of the three
    [set()] calls or the [save()] is rejected, [saveSettings] reports
    "Error saving settings: " with the message of the error, nothing is
    committed, and neither the autostart registration nor the timer
    restart is asked for. *)
Theorem save_failure_not_committed (h : host) (w : World) (i d : Z) :
  parseInt (intervalInput_value w) = Some i ->
  parseInt (durationInput_value w) = Some d ->
  1 <= i <= 180 -> 5 <= d <= 300 ->
  store_reachable h w ->
  h (StoreSet "intervalMinutes" (JNum i)) <> None \/
  h (StoreSet "overlayDurationSeconds" (JNum d)) <> None \/
  h (StoreSet "autoStart" (JBool (autostartInput_checked w))) <> None \/
  h StoreSave <> None ->
  let w' := exec (saveSettings h) w in
  let evs := new_events (trace w) w' in
  store_disk w' = store_disk w /\
  (exists e, status w' = ("Error saving settings: " +:+ e, "error") /\
             In (Console LError "❌ Failed to save settings:" [e]) evs) /\
  existsb is_enable evs = false /\
  existsb is_disable evs = false /\
  existsb is_rearm evs = false.
Proof.
  intros Hi Hd Ri Rd Hr Hfail.
  destruct w as [ss mem disk iv dv chk st sc tr].
  cbv [intervalInput_value durationInput_value autostartInput_checked] in Hi, Hd, Hfail.
  assert (Hl : ss = true \/ h (StoreLoad "settings.json") = None) by exact Hr.
  clear Hr.
  destruct ss; script;
    [|destruct Hl as [Hl|Hl]; [discriminate|rewrite Hl; script]];
    rewrite Hi, Hd, (accepted i 1 180 Ri), (accepted d 5 300 Rd); evaluate;
    (destruct (h (StoreSet "intervalMinutes" (JNum i))) eqn:E1; script;
     [|destruct (h (StoreSet "overlayDurationSeconds" (JNum d))) eqn:E2; script;
       [|destruct (h (StoreSet "autoStart" (JBool chk))) eqn:E3; script;
         [|destruct (h StoreSave) eqn:E4; script;
           [|exfalso; intuition congruence]]]]);
    (split; [reflexivity|]);
    (split; [eexists; split; [reflexivity|added; listed]|]);
    added; repeat split.
Qed.

Lemma save_failure_not_committed_witness :
  let h := fun c => match c with StoreSave => Some "disk full" | _ => None end in
  let w := mkWorld true ∅ ∅ "45" "300" true "" "" [] in
  let w' := exec (saveSettings h) w in
  store_disk w' = ∅ /\
  existsb is_rearm (new_events [] w') = false.
Proof.
  intros h w w'.
  assert (Hf : h (StoreSet "intervalMinutes" (JNum 45)) <> None \/
               h (StoreSet "overlayDurationSeconds" (JNum 300)) <> None \/
               h (StoreSet "autoStart" (JBool (autostartInput_checked w))) <> None \/
               h StoreSave <> None)
    by (right; right; right; discriminate).
  destruct (save_failure_not_committed h w 45 300 eq_refl eq_refl
              ltac:(lia) ltac:(lia) (or_introl eq_refl) Hf)
    as (Hd & _ & _ & _ & Hr).
  split; [exact Hd|exact Hr].
Defined.

(** X3.  When the three values are set but the commit is rejected, the
    loaded store runs ahead of the committed one: the committed contents
    are the old ones, yet the store already holds the new values and a
    following [loadSettings] shows them. *)
Theorem failed_commit_leaves_values_loaded
    (h h' : host) (w : World) (i d : Z) (e : string) :
  parseInt (intervalInput_value w) = Some i ->
  parseInt (durationInput_value w) = Some d ->
  1 <= i <= 180 -> 5 <= d <= 300 ->
  store_reachable h w ->
  (forall key v, h (StoreSet key v) = None) ->
  h StoreSave = Some e ->
  store_answers h' ->
  let w' := exec (saveSettings h) w in
  store_disk w' = store_disk w /\
  store_mem w' =
    <["autoStart" := JBool (autostartInput_checked w)]>
      (<["overlayDurationSeconds" := JNum d]>
         (<["intervalMinutes" := JNum i]> (store_mem w))) /\
  status w' = ("Error saving settings: " +:+ e, "error") /\
  form (exec (loadSettings h') w') =
    (string_of_Z i, string_of_Z d, autostartInput_checked w).
Proof.
  intros Hi Hd Ri Rd Hr Hset Hsave Hh' w'.
  assert (Hrun : store_disk w' = store_disk w /\
                 store_mem w' =
                   <["autoStart" := JBool (autostartInput_checked w)]>
                     (<["overlayDurationSeconds" := JNum d]>
                        (<["intervalMinutes" := JNum i]> (store_mem w))) /\
                 status w' = ("Error saving settings: " +:+ e, "error")).
  { subst w'. destruct w as [ss mem disk iv dv chk st sc tr].
    cbv [intervalInput_value durationInput_value] in Hi, Hd.
    assert (Hl : ss = true \/ h (StoreLoad "settings.json") = None) by exact Hr.
    clear Hr.
    destruct ss; script;
      [|destruct Hl as [Hl|Hl]; [discriminate|rewrite Hl; script]];
      rewrite Hi, Hd, (accepted i 1 180 Ri), (accepted d 5 300 Rd); script;
      repeat (rewrite Hset; script); rewrite Hsave; script;
      repeat split. }
  destruct Hrun as (Hk & Hm & Hs).
  repeat split; try assumption.
  rewrite (loadSettings_form h' w' Hh'), Hm.
  rewrite lookup_insert_ne, lookup_insert_ne, lookup_insert_eq by discriminate.
  rewrite lookup_insert_ne, lookup_insert_eq by discriminate.
  rewrite lookup_insert_eq. reflexivity.
Qed.

Lemma failed_commit_leaves_values_loaded_witness :
  let h := fun c => match c with StoreSave => Some "disk full" | _ => None end in
  let w := mkWorld true {["intervalMinutes" := JNum 20]}
             {["intervalMinutes" := JNum 20]} "45" "300" true "" "" [] in
  let w' := exec (saveSettings h) w in
  store_disk w' = {["intervalMinutes" := JNum 20]} /\
  form (exec (loadSettings (fun _ => None)) w') = ("45", "300", true).
Proof.
  intros h w w'.
  destruct (failed_commit_leaves_values_loaded h (fun _ => None) w 45 300
              "disk full" eq_refl eq_refl ltac:(lia) ltac:(lia)
              (or_introl eq_refl) (fun _ _ => eq_refl) eq_refl
              ltac:(repeat split))
    as (Hd & _ & _ & Hf).
  split; [exact Hd|exact Hf].
Defined.

(** [loadSettings] leaves both layers of the store as they are. *)
Lemma loadSettings_keeps_store (h : host) (w : World) :
  let w' := exec (loadSettings h) w in
  store_mem w' = store_mem w /\ store_disk w' = store_disk w /\
  existsb is_effect (new_events (trace w) w') = false.
Proof.
  destruct w as [ss mem disk iv dv chk st sc tr].
  destruct ss; script;
    try (destruct (h (StoreLoad "settings.json")) eqn:El; script);
    (destruct (h (StoreGet "intervalMinutes")) eqn:E1; script;
     [|destruct (h (StoreGet "overlayDurationSeconds")) eqn:E2; script;
       [|destruct (h (StoreGet "autoStart")) eqn:E3; script]]);
    repeat split; added; reflexivity.
Qed.

(** X4.  [loadSettings] only reads: whatever the host answers, the
    store and what is committed stay as they were, and no write, commit,
    autostart change or backend command is issued. *)
Theorem loadSettings_reads_only (h : host) (w : World) :
  let w' := exec (loadSettings h) w in
  let evs := new_events (trace w) w' in
  store_mem w' = store_mem w /\ store_disk w' = store_disk w /\
  existsb is_effect evs = false /\
  existsb is_store_write evs = false /\
  existsb is_rearm evs = false.
Proof.
  intros w' evs.
  destruct (loadSettings_keeps_store h w) as (Hm & Hd & He).
  fold w' in Hm, Hd, He. fold evs in He.
  split; [exact Hm|]. split; [exact Hd|]. split; [exact He|].
  assert (Himp : forall l, existsb is_effect l = false ->
                           existsb is_store_write l = false /\
                           existsb is_rearm l = false).
  { induction l as [|x l IH]; [split; reflexivity|].
    cbn [existsb]. intros Hx. apply orb_false_iff in Hx as [Hx Hl].
    destruct (IH Hl) as [-> ->].
    destruct x as [| [] ? |]; cbn in Hx |- *; try discriminate; split; reflexivity. }
  apply Himp, He.
Qed.

(** X5.  When a [get()] is rejected, [loadSettings] shows "Error loading
    settings: " with the message of the error and fills in none of the
    three fields, also not those whose values it had already read. *)
Theorem load_failure_keeps_form (h : host) (w : World) :
  store_reachable h w ->
  h (StoreGet "intervalMinutes") <> None \/
  h (StoreGet "overlayDurationSeconds") <> None \/
  h (StoreGet "autoStart") <> None ->
  let w' := exec (loadSettings h) w in
  form w' = form w /\
  exists e, status w' = ("Error loading settings: " +:+ e, "error") /\
            In (Console LError "❌ Failed to load settings:" [e])
               (new_events (trace w) w').
Proof.
  intros Hr Hfail.
  destruct w as [ss mem disk iv dv chk st sc tr].
  assert (Hl : ss = true \/ h (StoreLoad "settings.json") = None) by exact Hr.
  clear Hr.
  destruct ss; script;
    [|destruct Hl as [Hl|Hl]; [discriminate|rewrite Hl; script]];
    (destruct (h (StoreGet "intervalMinutes")) eqn:E1; script;
     [|destruct (h (StoreGet "overlayDurationSeconds")) eqn:E2; script;
       [|destruct (h (StoreGet "autoStart")) eqn:E3; script;
         [|exfalso; intuition congruence]]]);
    (split; [reflexivity|]);
    eexists; (split; [reflexivity|added; listed]).
Qed.

Lemma load_failure_keeps_form_witness :
  let h := fun c => match c with
                    | StoreGet "autoStart" => Some "unreadable"
                    | _ => None
                    end in
  let w := mkWorld true {["intervalMinutes" := JNum 45]} ∅ "7" "8" true "" "" [] in
  form (exec (loadSettings h) w) = ("7", "8", true).
Proof.
  intros h w.
  assert (Hf : h (StoreGet "intervalMinutes") <> None \/
               h (StoreGet "overlayDurationSeconds") <> None \/
               h (StoreGet "autoStart") <> None)
    by (right; right; discriminate).
  exact (proj1 (load_failure_keeps_form h w (or_introl eq_refl) Hf)).
Defined.

(** Once the handle is there, [saveSettings] keeps it and does not ask
    for the store again. *)
Lemma saveSettings_keeps_handle (h : host) (w : World) :
  settingsStore w = true ->
  let w' := exec (saveSettings h) w in
  settingsStore w' = true /\
  existsb is_StoreLoad (new_events (trace w) w') = false.
Proof.
  intros Hs. destruct w as [ss mem disk iv dv chk st sc tr].
  cbn in Hs. subst ss.
  destruct chk; paths h; split; try added; reflexivity.
Qed.

Lemma loadSettings_gets_handle (h : host) (w : World) :
  store_reachable h w -> settingsStore (exec (loadSettings h) w) = true.
Proof.
  intros Hr. destruct w as [ss mem disk iv dv chk st sc tr].
  assert (Hl : ss = true \/ h (StoreLoad "settings.json") = None) by exact Hr.
  clear Hr.
  destruct ss; script;
    [|destruct Hl as [Hl|Hl]; [discriminate|rewrite Hl; script]];
    (destruct (h (StoreGet "intervalMinutes")) eqn:E1; script;
     [|destruct (h (StoreGet "overlayDurationSeconds")) eqn:E2; script;
       [|destruct (h (StoreGet "autoStart")) eqn:E3; script]]);
    reflexivity.
Qed.

(** X6.  The store is opened once: after a [loadSettings] that got hold
    of the store, however its reads went, every later [saveSettings] and
    [loadSettings] works on that handle, keeps it, and makes no further
    [Store.load] call. *)
Theorem store_loaded_once (h0 : host) (w : World) :
  store_reachable h0 w ->
  let w1 := exec (loadSettings h0) w in
  settingsStore w1 = true /\
  forall h : host,
    (let w2 := exec (saveSettings h) w1 in
     settingsStore w2 = true /\
     existsb is_StoreLoad (new_events (trace w1) w2) = false) /\
    (let w2 := exec (loadSettings h) w1 in
     settingsStore w2 = true /\
     existsb is_StoreLoad (new_events (trace w1) w2) = false).
Proof.
  intros Hr w1. pose proof (loadSettings_gets_handle h0 w Hr) as H1.
  fold w1 in H1. split; [exact H1|]. intros h. split.
  - apply saveSettings_keeps_handle, H1.
  - clearbody w1. destruct w1 as [ss mem disk iv dv chk st sc tr].
    cbn in H1. subst ss. script.
    (destruct (h (StoreGet "intervalMinutes")) eqn:E1; script;
     [|destruct (h (StoreGet "overlayDurationSeconds")) eqn:E2; script;
       [|destruct (h (StoreGet "autoStart")) eqn:E3; script]]);
    split; try added; reflexivity.
Qed.

Lemma store_loaded_once_witness :
  let w := mkWorld false ∅ ∅ "45" "300" true "" "" [] in
  let w1 := exec (loadSettings (fun _ => None)) w in
  existsb is_StoreLoad (new_events [] w1) = true /\
  existsb is_StoreLoad
    (new_events (trace w1) (exec (saveSettings (fun _ => None)) w1)) = false.
Proof.
  intros w w1. split; [reflexivity|].
  destruct (store_loaded_once (fun _ => None) w (or_intror eq_refl)) as (_ & H).
  exact (proj2 (proj1 (H (fun _ => None)))).
Defined.

(** X7.  In every run of [saveSettings] the autostart call follows the
    checkbox and the commit: [disable()] is never called while the box is
    ticked, [enable()] never while it is not, neither is called unless
    [save()] went through, and the value written under [autoStart] is
    the state of the box. *)
Theorem autostart_follows_checkbox (h : host) (w : World) :
  let w' := exec (saveSettings h) w in
  let evs := new_events (trace w) w' in
  (autostartInput_checked w = true -> existsb is_disable evs = false) /\
  (autostartInput_checked w = false -> existsb is_enable evs = false) /\
  (existsb is_commit evs = false ->
   existsb is_enable evs = false /\ existsb is_disable evs = false) /\
  (forall v r, In (Called (StoreSet "autoStart" v) r) evs ->
               v = JBool (autostartInput_checked w)).
Proof.
  destruct w as [ss mem disk iv dv chk st sc tr].
  destruct ss, chk; paths h; added;
    cbn [existsb is_enable is_disable is_commit orb autostartInput_checked];
    (split; [intros; reflexivity || discriminate|]);
    (split; [intros; reflexivity || discriminate|]);
    (split; [intros; (split; reflexivity) || discriminate|]);
    intros v r Hin; cbn [In] in Hin;
    repeat (destruct Hin as [Hin|Hin];
            [first [discriminate Hin | injection Hin as <- _; reflexivity]|]);
    destruct Hin.
Qed.

Lemma valid_store_insert (m : gmap string jsval) (key : string) (v : jsval) :
  valid_store m -> valid_entry key v = true -> valid_store (<[key := v]> m).
Proof.
  intros Hm Hv k x. destruct (decide (k = key)) as [->|Hne].
  - rewrite lookup_insert_eq. intros [= <-]. exact Hv.
  - rewrite lookup_insert_ne by congruence. apply Hm.
Qed.

(** X8.  [saveSettings] never brings a value out of range into the
    store: if the loaded and the committed contents hold, under
    [intervalMinutes], [overlayDurationSeconds] and [autoStart], nothing
    but a number in [1,180], a number in [5,300] and a boolean, then so
    they do after any run, whatever the form holds and the host answers. *)
Theorem saveSettings_keeps_store_valid (h : host) (w : World) :
  valid_store (store_mem w) -> valid_store (store_disk w) ->
  let w' := exec (saveSettings h) w in
  valid_store (store_mem w') /\ valid_store (store_disk w').
Proof.
  intros Hm Hd. destruct w as [ss mem disk iv dv chk st sc tr].
  cbn [store_mem store_disk] in Hm, Hd.
  destruct ss, chk; paths h;
    repeat match goal with
           | H : rejected (parseInt _) _ _ = false |- _ =>
               apply rejected_false in H; destruct H as (? & ? & ?)
           end;
    repeat match goal with
           | H : parseInt _ = Some _ |- _ => rewrite H in *; clear H
           end;
    cbv beta iota delta [from_option];
    split; repeat apply valid_store_insert; try assumption;
    try reflexivity;
    cbn; apply andb_true_iff; split; apply Z.leb_le; lia.
Qed.

Lemma saveSettings_keeps_store_valid_witness :
  let m : gmap string jsval := {["intervalMinutes" := JNum 20]} in
  let w := mkWorld true m m "180" "5" false "" "" [] in
  valid_store (store_disk (exec (saveSettings (fun _ => None)) w)).
Proof.
  intros m w.
  assert (Hm : valid_store m).
  { intros key v. unfold m. destruct (decide (key = "intervalMinutes")) as [->|Hne].
    - rewrite lookup_singleton_eq. intros [= <-]. reflexivity.
    - rewrite lookup_singleton_ne by congruence. discriminate. }
  exact (proj2 (saveSettings_keeps_store_valid (fun _ => None) w Hm Hm)).
Defined.

(** X9.  Loading and saving again changes nothing: when the store holds
    an interval in [1,180], a duration in [5,300] and a boolean,
    [loadSettings] followed by [saveSettings] on the form it filled in
    leaves the store as it was and commits exactly that. *)
Theorem load_then_save_round_trip
    (h h' : host) (w : World) (i d : Z) (a : bool) :
  store_mem w !! "intervalMinutes" = Some (JNum i) ->
  store_mem w !! "overlayDurationSeconds" = Some (JNum d) ->
  store_mem w !! "autoStart" = Some (JBool a) ->
  1 <= i <= 180 -> 5 <= d <= 300 ->
  store_answers h -> store_answers h' ->
  let w1 := exec (loadSettings h) w in
  let w2 := exec (saveSettings h') w1 in
  form w1 = (string_of_Z i, string_of_Z d, a) /\
  store_mem w2 = store_mem w /\
  store_disk w2 = store_mem w.
Proof.
  intros Li Ld La Ri Rd Hh Hh' w1 w2.
  assert (Hf : form w1 = (string_of_Z i, string_of_Z d, a)).
  { unfold w1. rewrite (loadSettings_form h w Hh), Li, Ld, La. reflexivity. }
  destruct (loadSettings_keeps_store h w) as (Hm1 & _). fold w1 in Hm1.
  unfold form in Hf. injection Hf as Hfi Hfd Hfa.
  destruct (saveSettings_store h' w1 i d) as (Hm2 & Hk2 & _);
    try assumption;
    try (rewrite ?Hfi, ?Hfd; apply parseInt_string_of_Z).
  fold w2 in Hm2, Hk2.
  assert (Hsame : store_mem w2 = store_mem w).
  { rewrite Hm2, Hm1, Hfa.
    rewrite (insert_id (store_mem w) "intervalMinutes") by exact Li.
    rewrite (insert_id (store_mem w) "overlayDurationSeconds") by exact Ld.
    apply insert_id, La. }
  split; [unfold form; congruence|]. split; [exact Hsame|congruence].
Qed.

Lemma load_then_save_round_trip_witness :
  let m : gmap string jsval :=
    <["autoStart" := JBool true]>
      (<["overlayDurationSeconds" := JNum 30]> {["intervalMinutes" := JNum 45]}) in
  let w := mkWorld false m ∅ "" "" false "" "" [] in
  let w2 := exec (saveSettings (fun _ => None)) (exec (loadSettings (fun _ => None)) w) in
  store_mem w2 = m /\ store_disk w2 = m.
Proof.
  intros m w w2.
  assert (Hh : store_answers (fun _ => None)) by (repeat split).
  destruct (load_then_save_round_trip (fun _ => None) (fun _ => None) w 45 30 true
              eq_refl eq_refl eq_refl ltac:(lia) ltac:(lia) Hh Hh)
    as (_ & Hm & Hd).
  split; [exact Hm|exact Hd].
Defined.

(** X10.  Only the leading integer of a field counts: when the interval
    field holds a number in [1,180] followed by text that does not start
    with a digit, and the duration field likewise a number in [5,300],
    [saveSettings] stores and commits the two numbers. *)
Theorem save_reads_leading_integer
    (h : host) (w : World) (i d : Z) (si sd : string) :
  intervalInput_value w = string_of_Z i +:+ si ->
  durationInput_value w = string_of_Z d +:+ sd ->
  no_digit_ahead si = true -> no_digit_ahead sd = true ->
  1 <= i <= 180 -> 5 <= d <= 300 ->
  store_answers h ->
  let w' := exec (saveSettings h) w in
  store_mem w' !! "intervalMinutes" = Some (JNum i) /\
  store_mem w' !! "overlayDurationSeconds" = Some (JNum d) /\
  store_disk w' = store_mem w'.
Proof.
  intros Ei Ed Hsi Hsd Ri Rd Hh w'.
  destruct (saveSettings_store h w i d) as (Hm & Hk & _); try assumption;
    try (rewrite ?Ei, ?Ed; apply parseInt_suffix; assumption).
  fold w' in Hm, Hk.
  split; [rewrite Hm; by simplify_map_eq|].
  split; [rewrite Hm; by simplify_map_eq|exact Hk].
Qed.

Lemma save_reads_leading_integer_witness :
  let w := mkWorld true ∅ ∅ "45 minutes" "30.5" false "" "" [] in
  let w' := exec (saveSettings (fun _ => None)) w in
  store_mem w' !! "intervalMinutes" = Some (JNum 45) /\
  store_mem w' !! "overlayDurationSeconds" = Some (JNum 30).
Proof.
  intros w w'.
  destruct (save_reads_leading_integer (fun _ => None) w 45 30 " minutes" ".5"
              eq_refl eq_refl eq_refl eq_refl ltac:(lia) ltac:(lia)
              ltac:(repeat split)) as (Hi & Hd & _).
  split; [exact Hi|exact Hd].
Defined.

End SettingsProperties.

(* ===================================================================== *)
(** ** Properties of the status line *)
(* ===================================================================== *)

Section StatusLineProperties.
Import StatusLine.

(** What the host leaves of a line at time [now]: the text survives if
    no callback was due, and the callbacks not yet due stay pending. *)
Lemma fire_spec (now : Z) (pending : list Z) (l : Line) :
  shown (fire now pending l) =
    (if forallb (fun due => now <? due) pending then shown l else ("", "")) /\
  timeouts (fire now pending l) = List.filter (fun due => now <? due) pending.
Proof.
  revert l. induction pending as [|due rest IH]; intros l.
  - split; reflexivity.
  - cbn [fire forallb List.filter].
    destruct (Z.leb_spec due now) as [Hle|Hgt].
    + replace (now <? due) with false by (symmetry; apply Z.ltb_ge; lia).
      cbn [andb]. destruct (IH (blank l)) as (Hs & Ht).
      split; [|exact Ht]. rewrite Hs.
      destruct (forallb _ rest); reflexivity.
    + replace (now <? due) with true by (symmetry; apply Z.ltb_lt; lia).
      cbn [andb]. destruct (IH l) as (Hs & Ht).
      unfold shown in *. cbn [textContent className timeouts].
      split; [exact Hs|]. rewrite Ht. reflexivity.
Qed.

(** X11.  A status message stays on screen until the first time-out
    that is pending comes due, be it its own, 3000 ms after it was
    shown, or one left over from an earlier message; from then on the
    line is blank. *)
Theorem status_shown_until_first_timeout
    (l : Line) (now t : Z) (message type : string) :
  shown (advance t (showStatus now message type l)) =
    if forallb (fun due => t <? due) (timeouts l) && (t <? now + 3000)
    then (message, type) else ("", "").
Proof.
  unfold advance, showStatus. cbn [timeouts].
  destruct (fire_spec t (timeouts l ++ [now + 3000])
              (mkLine message type (timeouts l ++ [now + 3000]))) as (Hs & _).
  rewrite Hs, forallb_app. cbn [forallb]. rewrite andb_true_r. reflexivity.
Qed.

(** X12.  Two messages less than 3000 ms apart: the second one is on
    screen only until the time-out of the first one comes due, which
    blanks it before its own 3000 ms are over; its own time-out is still
    pending then. *)
Theorem second_status_cut_short
    (l : Line) (t1 t2 t : Z) (m1 ty1 m2 ty2 : string) :
  timeouts l = [] ->
  t1 <= t2 < t1 + 3000 ->
  let l2 := showStatus t2 m2 ty2 (advance t2 (showStatus t1 m1 ty1 l)) in
  (t2 <= t < t1 + 3000 -> shown (advance t l2) = (m2, ty2)) /\
  (t1 + 3000 <= t < t2 + 3000 ->
   shown (advance t l2) = ("", "") /\ timeouts (advance t l2) = [t2 + 3000]).
Proof.
  intros Hl Ht l2.
  assert (Hp : timeouts (advance t2 (showStatus t1 m1 ty1 l)) = [t1 + 3000]).
  { unfold advance, showStatus. cbn [timeouts]. rewrite Hl. cbn [app].
    destruct (fire_spec t2 [t1 + 3000] (mkLine m1 ty1 [t1 + 3000])) as (_ & ->).
    cbn [List.filter].
    replace (t2 <? t1 + 3000) with true by (symmetry; apply Z.ltb_lt; lia).
    reflexivity. }
  assert (Hrun : shown (advance t l2) =
                   (if (t <? t1 + 3000) && ((t <? t2 + 3000) && true)
                    then (m2, ty2) else ("", "")) /\
                 timeouts (advance t l2) =
                   List.filter (fun due => t <? due) [t1 + 3000; t2 + 3000]).
  { unfold l2. set (l1 := advance t2 (showStatus t1 m1 ty1 l)) in *.
    unfold advance, showStatus. cbn [timeouts]. rewrite Hp. cbn [app].
    match goal with
    | |- shown (fire t ?p ?x) = _ /\ _ => destruct (fire_spec t p x) as (-> & ->)
    end.
    split; reflexivity. }
  destruct Hrun as (Hs & Hq). rewrite Hs, Hq. cbn [List.filter]. split; intros Hin.
  - replace (t <? t1 + 3000) with true by (symmetry; apply Z.ltb_lt; lia).
    replace (t <? t2 + 3000) with true by (symmetry; apply Z.ltb_lt; lia).
    reflexivity.
  - replace (t <? t1 + 3000) with false by (symmetry; apply Z.ltb_ge; lia).
    replace (t <? t2 + 3000) with true by (symmetry; apply Z.ltb_lt; lia).
    split; reflexivity.
Qed.

(** An error at 1000 ms and a success at 3500 ms: at 4000 ms the
    success message is gone, 500 ms after it was shown. *)
Lemma second_status_cut_short_witness :
  let l2 := showStatus 3500 "Settings saved successfully!" "success"
              (advance 3500
                 (showStatus 1000 "Interval must be between 1-180 minutes" "error"
                    (mkLine "" "" []))) in
  shown (advance 3999 l2) = ("Settings saved successfully!", "success") /\
  shown (advance 4000 l2) = ("", "").
Proof.
  intros l2.
  destruct (second_status_cut_short (mkLine "" "" []) 1000 3500 3999
              "Interval must be between 1-180 minutes" "error"
              "Settings saved successfully!" "success" eq_refl ltac:(lia))
    as (H1 & _).
  destruct (second_status_cut_short (mkLine "" "" []) 1000 3500 4000
              "Interval must be between 1-180 minutes" "error"
              "Settings saved successfully!" "success" eq_refl ltac:(lia))
    as (_ & H2).
  split; [exact (H1 ltac:(lia))|exact (proj1 (H2 ltac:(lia)))].
Defined.

End StatusLineProperties.

(* ===================================================================== *)
(** ** Properties of the overlay window *)
(* ===================================================================== *)

Section OverlayProperties.
Import Js Overlay.

Variable b : Bridge.

Lemma count_app (p : event -> bool) (l k : list event) :
  count p (l ++ k) = (count p l + count p k)%nat.
Proof. induction l as [|e l IH]; cbn [count app]; [reflexivity|lia]. Qed.

(** [closeWindow] runs the close routine once more and touches nothing
    but the trace. *)
Lemma closeWindow_frame (st : State) :
  let st' := closeWindow b st in
  close_routines st' = S (close_routines st) /\
  duration st' = duration st /\ timeLeft st' = timeLeft st /\
  intervalId st' = intervalId st /\ timers st' = timers st /\
  awaiting st' = awaiting st /\ progress_width st' = progress_width st /\
  countdown_textContent st' = countdown_textContent st.
Proof.
  destruct st as [d t i c p ts n a tr].
  unfold closeWindow, close_routines.
  destruct (negb (TAURI b) || negb (TAURI_window b));
    [|destruct (getCurrentWindow_throws b); [|destruct (close_throws b)]];
    cbn [emit duration timeLeft intervalId timers awaiting progress_width
         countdown_textContent trace next_timer];
    rewrite !count_app; cbn [count is_CloseRoutine]; repeat split; lia.
Qed.

(** With the window API at hand, it also asks once more for the window
    to be closed. *)
Lemma closeWindow_requests (st : State) :
  window_api b ->
  close_requests (closeWindow b st) = S (close_requests st).
Proof.
  intros (H1 & H2 & H3). destruct st as [d t i c p ts n a tr].
  unfold closeWindow, close_requests. rewrite H1, H2, H3.
  cbn [negb orb]. destruct (close_throws b);
    cbn [emit duration timeLeft intervalId timers awaiting progress_width
         countdown_textContent trace next_timer];
    rewrite !count_app; cbn [count is_CloseRequest]; lia.
Qed.

Ltac fields :=
  cbn [emit set_duration set_timeLeft set_countdown set_progress set_awaiting
       duration timeLeft intervalId timers awaiting progress_width
       countdown_textContent trace next_timer].

(** Replaces the state [closeWindow] returns by what the two lemmas
    above say about it. *)
Ltac close_window :=
  match goal with
  | |- context [closeWindow b ?s] =>
      destruct (closeWindow_frame s) as (Hr & Hd & Hl & Hi & Hm & Hw & Hp & _);
      pose proof (closeWindow_requests s) as Hq;
      cbv zeta in Hr, Hd, Hl, Hi, Hm, Hw, Hp;
      unfold closing, close_routines, close_requests in *;
      rewrite ?Hd, ?Hl, ?Hi, ?Hm, ?Hw, ?Hp;
      cbn [emit duration timeLeft intervalId timers awaiting progress_width
           countdown_textContent trace next_timer] in *;
      rewrite ?count_app in *;
      cbn [count is_CloseRoutine is_CloseRequest] in *
  end.

(** A tick while more than one second is left: one second less, the
    bar redrawn, nothing else. *)
Lemma step_tick_counting (st : State) :
  counting st -> 1 < timeLeft st ->
  let st' := step b st Tick in
  counting st' /\ timeLeft st' = timeLeft st - 1 /\
  duration st' = duration st /\ trace st' = trace st /\
  progress_width st' = Some (times (ratio st') 100).
Proof.
  intros (id & Hid & Hts & Ha) Ht.
  destruct st as [d t i c p ts n a tr]. cbn in Hid, Hts, Ha, Ht. subst.
  unfold step. fields.
  destruct (decide ({[id]} = ∅)) as [E|_];
    [exfalso; revert E; apply non_empty_singleton_L|].
  unfold on_tick, ratio. fields.
  destruct (t - 1 <=? 0) eqn:E; [apply Z.leb_le in E; lia|].
  fields. repeat split. exists id. repeat split.
Qed.

(** The tick that brings [timeLeft] to zero cancels the timer and runs
    the close routine. *)
Lemma step_tick_last (st : State) :
  counting st -> timeLeft st <= 1 ->
  let st' := step b st Tick in
  closing st' /\ timeLeft st' = timeLeft st - 1 /\
  duration st' = duration st /\
  close_routines st' = S (close_routines st) /\
  (window_api b -> close_requests st' = S (close_requests st)) /\
  progress_width st' = Some (times (ratio st') 100).
Proof.
  intros (id & Hid & Hts & Ha) Ht.
  destruct st as [d t i c p ts n a tr]. cbn in Hid, Hts, Ha, Ht. subst.
  unfold step. fields.
  destruct (decide ({[id]} = ∅)) as [E|_];
    [exfalso; revert E; apply non_empty_singleton_L|].
  unfold on_tick, ratio. fields.
  destruct (t - 1 <=? 0) eqn:E; [|apply Z.leb_gt in E; lia].
  unfold clearInterval. fields. close_window.
  repeat split; try congruence; try lia; [apply difference_diag_L|].
  intros Hb. rewrite (Hq Hb). lia.
Qed.

Lemma step_tick_dead (st : State) : timers st = ∅ -> step b st Tick = st.
Proof.
  intros E. unfold step. destruct (decide (timers st = ∅)); congruence.
Qed.

(** In the closing state a tick and a late reply do nothing, and a
    skip runs the close routine again without touching the countdown. *)
Lemma step_closing (st : State) (i : input) :
  closing st ->
  let st' := step b st i in
  closing st' /\ timeLeft st' = timeLeft st /\ duration st' = duration st /\
  progress_width st' = progress_width st /\
  close_routines st' = (close_routines st + if is_Skip i then 1 else 0)%nat /\
  (window_api b ->
   close_requests st' = (close_requests st + if is_Skip i then 1 else 0)%nat).
Proof.
  intros (Hid & Hts & Ha). destruct i as [answer| |]; cbn [is_Skip].
  - unfold step. rewrite Ha. unfold closing. repeat split; auto; lia.
  - rewrite step_tick_dead by assumption.
    unfold closing. repeat split; auto; lia.
  - destruct st as [d t i c p ts n a tr]. cbn in Hid, Hts, Ha. subst.
    destruct i as [id|]; [|congruence].
    unfold step, on_skip. fields.
    unfold clearInterval. fields. close_window.
    repeat split; try congruence; try lia; [apply empty_difference_L|].
    intros Hb. rewrite (Hq Hb). lia.
Qed.

Lemma skips_cons (i : input) (inputs : list input) :
  skips (i :: inputs) = ((if is_Skip i then 1 else 0) + skips inputs)%nat.
Proof. unfold skips. cbn [List.filter]. destruct (is_Skip i); reflexivity. Qed.

Lemma run_closing (inputs : list input) (st : State) :
  closing st ->
  let st' := run b st inputs in
  closing st' /\ timeLeft st' = timeLeft st /\ duration st' = duration st /\
  progress_width st' = progress_width st /\
  close_routines st' = (close_routines st + skips inputs)%nat /\
  (window_api b -> close_requests st' = (close_requests st + skips inputs)%nat).
Proof.
  revert st. induction inputs as [|i inputs IH]; intros st Hc.
  - cbn. unfold skips. cbn. split; [exact Hc|]. repeat split; auto; lia.
  - change (run b st (i :: inputs)) with (run b (step b st i) inputs).
    destruct (step_closing st i Hc) as (Hc' & Ht & Hd & Hp & Hr & Hq).
    destruct (IH _ Hc') as (Hc'' & Ht' & Hd' & Hp' & Hr' & Hq').
    rewrite skips_cons.
    split; [exact Hc''|]. repeat split; try congruence.
    + rewrite Hr', Hr. lia.
    + intros Hb. rewrite (Hq' Hb), (Hq Hb). lia.
Qed.

(** While seconds are left, [n] ticks take [n] seconds off and leave
    the countdown running. *)
Lemma run_ticks_counting (n : nat) (st : State) :
  counting st -> Z.of_nat n < timeLeft st ->
  let st' := run b st (ticks n) in
  counting st' /\ timeLeft st' = timeLeft st - Z.of_nat n /\
  duration st' = duration st /\ trace st' = trace st /\
  (0 < n -> progress_width st' = Some (times (ratio st') 100))%nat.
Proof.
  revert st. induction n as [|n IH]; intros st Hc Ht.
  - cbn. repeat split; [exact Hc|lia|lia].
  - change (run b st (ticks (S n))) with (run b (step b st Tick) (ticks n)).
    destruct (step_tick_counting st Hc ltac:(lia)) as (Hc' & Ht' & Hd' & Htr' & Hp').
    destruct (IH _ Hc' ltac:(lia)) as (Hc'' & Ht'' & Hd'' & Htr'' & Hp'').
    split; [exact Hc''|]. repeat split; try congruence; try lia.
    intros _. destruct n as [|n]; [exact Hp'|apply Hp''; lia].
Qed.

Lemma divide_nonnegative (t d : Z) :
  0 <= t -> 1 <= d -> nonnegative (times (divide t d) 100) = true /\
                      nonnegative (divide t d) = true.
Proof.
  intros Ht Hd. unfold divide.
  destruct (d =? 0) eqn:E; [apply Z.eqb_eq in E; lia|].
  cbn [times nonnegative]. rewrite !Qle_bool_iff.
  unfold Qle, Qmult, inject_Z. cbn [Qnum Qden]. nia.
Qed.

Lemma divide_zero (d : Z) :
  1 <= d -> is_zero (times (divide 0 d) 100) = true /\ is_zero (divide 0 d) = true.
Proof.
  intros Hd. unfold divide.
  destruct (d =? 0) eqn:E; [apply Z.eqb_eq in E; lia|].
  cbn [times is_zero]. split; apply Qeq_bool_iff; reflexivity.
Qed.

(** The whole countdown: [d] ticks after a start with [d] seconds. *)
Lemma run_countdown (d : Z) (st : State) :
  started_with d st -> 1 <= d ->
  let st' := run b st (ticks (Z.to_nat d)) in
  closing st' /\ timeLeft st' = 0 /\ duration st' = d /\
  close_routines st' = 1%nat /\
  (window_api b -> close_requests st' = S (close_requests st)) /\
  progress_width st' = Some (times (ratio st') 100).
Proof.
  intros (Hc & Hd & Ht & Hr) Hpos.
  replace (Z.to_nat d) with (Z.to_nat (d - 1) + 1)%nat by lia.
  unfold ticks, run. rewrite repeat_app, fold_left_app. cbn [repeat fold_left].
  destruct (run_ticks_counting (Z.to_nat (d - 1)) st Hc ltac:(lia))
    as (Hc' & Ht' & Hd' & Htr' & _).
  unfold ticks, run in *.
  set (st1 := fold_left (step b) (repeat Tick (Z.to_nat (d - 1))) st) in *.
  destruct (step_tick_last st1 Hc' ltac:(lia)) as (Hcl & Ht2 & Hd2 & Hr2 & Hq2 & Hp2).
  split; [exact Hcl|]. repeat split; try congruence; try lia.
  - rewrite Hr2. unfold close_routines in *. rewrite Htr'. lia.
  - intros Hb. rewrite (Hq2 Hb). unfold close_requests. rewrite Htr'. reflexivity.
Qed.

Lemma skips_ticks (n : nat) : skips (ticks n) = 0%nat.
Proof. induction n as [|n IH]; [reflexivity|]. exact IH. Qed.

Lemma ticks_add (n m : nat) (st : State) :
  run b st (ticks (n + m)) = run b (run b st (ticks n)) (ticks m).
Proof. unfold run, ticks. rewrite repeat_app, fold_left_app. reflexivity. Qed.

(** [startCountdown] on a page that has no timer yet. *)
Lemma startCountdown_counting (st : State) :
  timers st = ∅ -> awaiting st = false ->
  let st' := startCountdown st in
  counting st' /\ duration st' = duration st /\ timeLeft st' = timeLeft st /\
  close_routines st' = close_routines st /\
  close_requests st' = close_requests st.
Proof.
  intros Hts Ha. destruct st as [d t i c p ts n a tr]. cbn in Hts, Ha. subst.
  unfold startCountdown, setInterval, close_routines, close_requests. fields.
  rewrite !count_app. cbn [count is_CloseRoutine is_CloseRequest].
  repeat split; try lia.
  exists n. repeat split. apply (right_id_L ∅ (∪)).
Qed.

(** The page when the backend has answered with [d] seconds. *)
Lemma boot_started (d : Z) :
  TAURI b = true -> TAURI_core b = true ->
  let st := run b (boot b) [Reply (inr d)] in
  started_with d st /\ close_requests st = 0%nat /\
  countdown_textContent st = Some d /\ progress_width st = Some (Fin 100).
Proof.
  intros H1 H2. unfold boot, init, initial. rewrite H1, H2.
  cbn [negb orb run fold_left step]. fields. cbn [awaiting set_awaiting].
  unfold init_resume. fields.
  match goal with
  | |- context [startCountdown ?s] =>
      destruct (startCountdown_counting s eq_refl eq_refl)
        as (Hc & Hd & Ht & Hr & Hq)
  end.
  unfold started_with. rewrite Hd, Ht, Hr, Hq.
  repeat split; try assumption; reflexivity.
Qed.

(** C4.  A countdown started with [d >= 1] seconds (20 by default):
    after exactly [d] ticks [timeLeft] is 0, the ratio
    [timeLeft / duration] and the width of the bar are 0, and the close
    routine has run exactly once; and after any number of ticks
    [timeLeft] and the ratio are not negative and the close routine
    has run at most once, since the last tick cancels the timer. *)
Theorem C4_countdown_reaches_zero (d : Z) (st : State) :
  started_with d st -> 1 <= d ->
  let st' := run b st (ticks (Z.to_nat d)) in
  (timeLeft st' = 0 /\
   is_zero (ratio st') = true /\
   (exists p, progress_width st' = Some p /\ is_zero p = true) /\
   close_routines st' = 1%nat /\
   (window_api b -> close_requests st' = S (close_requests st))) /\
  (forall n : nat,
      let stn := run b st (ticks n) in
      0 <= timeLeft stn /\
      nonnegative (ratio stn) = true /\
      ((0 < n)%nat ->
       exists p, progress_width stn = Some p /\ nonnegative p = true) /\
      close_routines stn = if Z.of_nat n <? d then 0%nat else 1%nat).
Proof.
  intros Hs Hpos st'.
  destruct (run_countdown d st Hs Hpos) as (Hcl & Ht & Hd & Hr & Hq & Hp).
  fold st' in Hcl, Ht, Hd, Hr, Hq, Hp.
  assert (Hz : is_zero (ratio st') = true /\
               exists p, progress_width st' = Some p /\ is_zero p = true).
  { rewrite Hp. unfold ratio. rewrite Ht, Hd.
    destruct (divide_zero d Hpos) as (Hz1 & Hz2). eauto. }
  split; [tauto|].
  intros n stn. destruct Hs as (Hc & Hd0 & Ht0 & Hr0).
  destruct (Z.ltb_spec (Z.of_nat n) d) as [Hlt|Hge].
  - destruct (run_ticks_counting n st Hc ltac:(lia)) as (_ & Htn & Hdn & Htr & Hpn).
    fold stn in Htn, Hdn, Htr, Hpn.
    assert (Hn : 0 <= timeLeft stn) by lia.
    destruct (divide_nonnegative (timeLeft stn) d Hn Hpos) as (Hn1 & Hn2).
    unfold ratio in *. rewrite Hdn, Hd0 in *.
    repeat split;
      [exact Hn|exact Hn2| |unfold close_routines in *; rewrite Htr; exact Hr0].
    intros Hn0. rewrite (Hpn Hn0). eauto.
  - assert (Hm : exists m, n = (Z.to_nat d + m)%nat)
      by (exists (n - Z.to_nat d)%nat; lia).
    destruct Hm as (m & ->). subst stn. rewrite ticks_add. fold st'.
    destruct (run_closing (ticks m) st' Hcl) as (_ & Htn & Hdn & Hpn & Hrn & _).
    rewrite skips_ticks in Hrn. unfold ratio in *.
    rewrite Htn, Hdn, Hpn, Hrn, Ht, Hd, Hr in *.
    destruct Hz as (Hz1 & p & Hzp & Hz2).
    destruct (divide_nonnegative 0 d ltac:(lia) Hpos) as (Hn1 & Hn2).
    repeat split; [lia|exact Hn2|].
    intros _. rewrite Hp. eauto.
Qed.

(** C8.  When the bridge is missing, and when [get_overlay_duration]
    is rejected, [init] still starts the countdown, with the default of
    20 seconds for both [duration] and [timeLeft]; twenty ticks later
    the countdown has closed the overlay. *)
Theorem C8_default_duration_fallback :
  (TAURI b = false \/ TAURI_core b = false ->
   started_with 20 (boot b) /\
   timeLeft (run b (boot b) (ticks 20)) = 0) /\
  (TAURI b = true -> TAURI_core b = true ->
   forall error : string,
     let st := run b (boot b) [Reply (inl error)] in
     started_with 20 st /\ timeLeft (run b st (ticks 20)) = 0).
Proof.
  assert (Hrun : forall st, started_with 20 st -> timeLeft (run b st (ticks 20)) = 0).
  { intros st Hs.
    destruct (run_countdown 20 st Hs ltac:(lia)) as (_ & Ht & _). exact Ht. }
  split.
  - intros Hmiss.
    assert (Hs : started_with 20 (boot b)).
    { unfold boot, init.
      replace (negb (TAURI b) || negb (TAURI_core b)) with true
        by (destruct Hmiss as [-> | ->]; [|destruct (TAURI b)]; reflexivity).
      match goal with
      | |- context [startCountdown ?s] =>
          destruct (startCountdown_counting s eq_refl eq_refl)
            as (Hc & Hd & Ht & Hr & _)
      end.
      unfold started_with. rewrite Hd, Ht, Hr. repeat split; assumption. }
    split; [exact Hs|apply Hrun, Hs].
  - intros H1 H2 error.
    assert (Hs : started_with 20 (run b (boot b) [Reply (inl error)])).
    { unfold boot, init, initial. rewrite H1, H2.
      cbn [negb orb run fold_left step]. fields. cbn [awaiting set_awaiting].
      unfold init_resume. fields.
      match goal with
      | |- context [startCountdown ?s] =>
          destruct (startCountdown_counting s eq_refl eq_refl)
            as (Hc & Hd & Ht & Hr & _)
      end.
      unfold started_with. rewrite Hd, Ht, Hr. repeat split; assumption. }
    split; [exact Hs|apply Hrun, Hs].
Qed.

(** A skip during the countdown cancels the timer and runs the close
    routine; the seconds left stay as they are. *)
Lemma step_skip_counting (st : State) :
  counting st ->
  let st' := step b st Skip in
  closing st' /\ timeLeft st' = timeLeft st /\
  close_routines st' = S (close_routines st) /\
  (window_api b -> close_requests st' = S (close_requests st)).
Proof.
  intros (id & Hid & Hts & Ha).
  destruct st as [d t i c p ts n a tr]. cbn in Hid, Hts, Ha. subst.
  unfold step, on_skip. fields. unfold clearInterval. fields. close_window.
  repeat split; try congruence; try lia; [apply difference_diag_L|].
  intros Hb. rewrite (Hq Hb). lia.
Qed.

(** C3, amended.  Once the countdown has triggered the close routine,
    by the tick that reaches zero or by a skip, the timer is cancelled
    for good: whatever ticks, skips and late replies follow, [timeLeft]
    and the progress bar never change again (after a natural end
    [timeLeft] stays 0).  A later skip is not ignored, though: each one
    runs the close routine once more and, with the window API at hand,
    asks once more for the window to be closed. *)
Theorem C3_closing_is_final (st st0 : State) (inputs : list input) :
  counting st ->
  st0 = step b st Skip \/ (timeLeft st = 1 /\ st0 = step b st Tick) ->
  let st' := run b st0 inputs in
  closing st0 /\ closing st' /\
  timeLeft st' = timeLeft st0 /\
  (st0 = step b st Tick -> timeLeft st = 1 -> timeLeft st' = 0) /\
  progress_width st' = progress_width st0 /\
  (forall more : list input, run b st' (ticks 1 ++ more) = run b st' more) /\
  close_routines st' = (close_routines st0 + skips inputs)%nat /\
  (window_api b -> close_requests st' = (close_requests st0 + skips inputs)%nat).
Proof.
  intros Hc Hfrom st'.
  assert (Hcl : closing st0).
  { destruct Hfrom as [-> | [Ht ->]].
    - apply step_skip_counting, Hc.
    - apply step_tick_last; [exact Hc|lia]. }
  destruct (run_closing inputs st0 Hcl) as (Hcl' & Ht & _ & Hp & Hr & Hq).
  fold st' in Hcl', Ht, Hp, Hr, Hq.
  split; [exact Hcl|]. split; [exact Hcl'|]. split; [exact Ht|].
  split; [|split; [exact Hp|split; [|split; [exact Hr|exact Hq]]]].
  - intros -> H1. rewrite Ht.
    destruct (step_tick_last st Hc ltac:(lia)) as (_ & -> & _). lia.
  - intros more. cbn [ticks repeat app run fold_left].
    rewrite step_tick_dead; [reflexivity|apply Hcl'].
Qed.

(** [closeWindow] creates no timer, and asks for the window to be closed
    only if the window API is at hand. *)
Lemma closeWindow_more (st : State) :
  let st' := closeWindow b st in
  set_intervals st' = set_intervals st /\ next_timer st' = next_timer st /\
  (~ window_api b -> close_requests st' = close_requests st).
Proof.
  destruct st as [d t i c p ts n a tr].
  unfold closeWindow, set_intervals, close_requests, window_api.
  destruct (TAURI b), (TAURI_window b); cbn [negb orb];
    try destruct (getCurrentWindow_throws b);
    try destruct (close_throws b);
    fields; rewrite ?count_app; cbn [count is_SetInterval is_CloseRequest];
    repeat split; try lia; intros Hn; exfalso; apply Hn; repeat split.
Qed.

Lemma well_formed_boot : well_formed (boot b).
Proof.
  unfold boot, init, initial.
  destruct (negb (TAURI b) || negb (TAURI_core b)); [right|left];
    unfold startCountdown, setInterval, set_intervals; fields;
    repeat split; left; apply (right_id_L ∅ (∪)).
Qed.

Lemma well_formed_step (st : State) (i : input) :
  well_formed st -> well_formed (step b st i).
Proof.
  intros Hw. destruct st as [d t id c p ts n a tr].
  unfold well_formed, set_intervals in Hw. cbn in Hw.
  destruct Hw as [(-> & -> & -> & -> & Hn)|(-> & -> & Hts & Hn)].
  - destruct i as [answer| |]; unfold step; fields.
    + right. unfold well_formed, init_resume.
      destruct answer; unfold startCountdown, setInterval, set_intervals; fields;
        rewrite ?count_app; cbn [count is_SetInterval];
        (repeat split; [left; apply (right_id_L ∅ (∪))|lia]).
    + destruct (decide (∅ = ∅)); [|congruence].
      left. unfold set_intervals. repeat split; assumption.
    + left. unfold on_skip, clearInterval. fields.
      match goal with
      | |- context [closeWindow b ?s] =>
          destruct (closeWindow_frame s) as (_ & _ & _ & Hi & Hm & Hw & _);
          destruct (closeWindow_more s) as (Hs & Hx & _)
      end.
      cbv zeta in *. unfold well_formed. rewrite Hi, Hm, Hw, Hs, Hx.
      unfold set_intervals. fields. rewrite ?count_app.
      cbn [count is_SetInterval]. repeat split; lia.
  - right. destruct i as [answer| |]; unfold step; fields.
    + unfold well_formed, set_intervals. repeat split; assumption.
    + destruct (decide (ts = ∅)).
      * unfold well_formed, set_intervals. repeat split; assumption.
      * unfold on_tick. fields. destruct (t - 1 <=? 0).
        -- unfold clearInterval. fields.
           match goal with
           | |- context [closeWindow b ?s] =>
               destruct (closeWindow_frame s) as (_ & _ & _ & Hi & Hm & Hw & _);
               destruct (closeWindow_more s) as (Hs & _)
           end.
           cbv zeta in *. unfold well_formed. rewrite Hi, Hm, Hw, Hs.
           unfold set_intervals. fields. rewrite ?count_app.
           cbn [count is_SetInterval].
           repeat split; [|lia]. right.
           destruct Hts as [-> | ->];
             [apply difference_diag_L|apply empty_difference_L].
        -- unfold well_formed, set_intervals. fields. repeat split; assumption.
    + unfold on_skip, clearInterval. fields.
      match goal with
      | |- context [closeWindow b ?s] =>
          destruct (closeWindow_frame s) as (_ & _ & _ & Hi & Hm & Hw & _);
          destruct (closeWindow_more s) as (Hs & _)
      end.
      cbv zeta in *. unfold well_formed. rewrite Hi, Hm, Hw, Hs.
      unfold set_intervals. fields. rewrite ?count_app.
      cbn [count is_SetInterval].
      repeat split; [|lia]. right.
      destruct Hts as [-> | ->];
        [apply difference_diag_L|apply empty_difference_L].
Qed.

(** X13.  Whatever replies, ticks and skips reach the page, and in
    whatever order, [setInterval] is called at most once and at most one
    timer is alive; as long as the duration has not been answered there
    is none. *)
Theorem single_interval_timer (inputs : list input) :
  let st := run b (boot b) inputs in
  well_formed st /\
  (set_intervals st <= 1)%nat /\
  (timers st = ∅ \/ timers st = {[1%positive]}) /\
  (awaiting st = true -> timers st = ∅ /\ set_intervals st = 0%nat).
Proof.
  intros st.
  assert (Hw : well_formed st).
  { subst st. generalize (boot b), well_formed_boot.
    induction inputs as [|i inputs IH]; intros s Hs; [exact Hs|].
    apply (IH (step b s i)), well_formed_step, Hs. }
  split; [exact Hw|].
  destruct Hw as [(Ha & _ & Hts & _ & Hn)|(Ha & _ & Hts & Hn)].
  - rewrite Hts, Hn. repeat split; auto.
  - rewrite Hn, Ha. repeat split; [lia|tauto|discriminate|discriminate].
Qed.

(** A skip never touches the countdown variables. *)
Lemma step_skip_frame (st : State) :
  duration (step b st Skip) = duration st /\
  timeLeft (step b st Skip) = timeLeft st.
Proof.
  destruct st as [d t id c p ts n a tr]. unfold step, on_skip. fields.
  match goal with
  | |- context [closeWindow b ?s] =>
      destruct (closeWindow_frame s) as (_ & Hd & Hl & _)
  end.
  cbv zeta in *. rewrite Hd, Hl. destruct id; split; reflexivity.
Qed.

(** X14.  Once the countdown has been started with [d >= 1] seconds,
    no sequence of ticks, skips and replies takes [timeLeft] out of
    [0, d] or changes [duration]: the ratio shown is never negative, and
    [timeLeft] is 0 only when the timer has been cancelled. *)
Theorem countdown_stays_in_bounds (d : Z) (st : State) (inputs : list input) :
  started_with d st -> 1 <= d ->
  let st' := run b st inputs in
  0 <= timeLeft st' <= d /\ duration st' = d /\
  nonnegative (ratio st') = true /\
  (counting st' \/ closing st') /\
  (timeLeft st' = 0 -> closing st').
Proof.
  intros (Hc & Hd & Ht & _) Hpos st'.
  assert (Hinv : duration st' = d /\
                 ((counting st' /\ 1 <= timeLeft st' <= d) \/
                  (closing st' /\ 0 <= timeLeft st' <= d))).
  { subst st'.
    assert (H0 : duration st = d /\
                 ((counting st /\ 1 <= timeLeft st <= d) \/
                  (closing st /\ 0 <= timeLeft st <= d)))
      by (split; [exact Hd|left; split; [exact Hc|lia]]).
    clear Hc Hd Ht. revert st H0.
    induction inputs as [|i inputs IH]; intros st H0; [exact H0|].
    apply (IH (step b st i)). destruct H0 as (Hd & [(Hc & Ht)|(Hc & Ht)]).
    - destruct i as [answer| |].
      + destruct Hc as (id & Hid & Hts & Ha). unfold step. rewrite Ha.
        split; [exact Hd|left; split; [exists id; auto|exact Ht]].
      + destruct (Z.eq_dec (timeLeft st) 1) as [E|E].
        * destruct (step_tick_last st Hc ltac:(lia)) as (Hcl & Ht' & Hd' & _).
          split; [congruence|right; split; [exact Hcl|lia]].
        * destruct (step_tick_counting st Hc ltac:(lia)) as (Hc' & Ht' & Hd' & _).
          split; [congruence|left; split; [exact Hc'|lia]].
      + destruct (step_skip_counting st Hc) as (Hcl & Ht' & _).
        destruct (step_skip_frame st) as (Hd' & _).
        split; [congruence|right; split; [exact Hcl|lia]].
    - destruct (step_closing st i Hc) as (Hcl & Ht' & Hd' & _).
      split; [congruence|right; split; [exact Hcl|lia]]. }
  destruct Hinv as (Hd' & Hcases).
  assert (Hb : 0 <= timeLeft st' <= d) by (destruct Hcases as [(_ & ?)|(_ & ?)]; lia).
  split; [exact Hb|]. split; [exact Hd'|]. split; [|split].
  - unfold ratio. rewrite Hd'.
    apply (divide_nonnegative (timeLeft st') d); [lia|exact Hpos].
  - destruct Hcases as [(? & _)|(? & _)]; [left|right]; assumption.
  - intros Hz. destruct Hcases as [(_ & ?)|(? & _)]; [lia|assumption].
Qed.

(** X15.  A skip that comes while [init] still waits for the duration
    runs the close routine but cancels nothing, for there is no timer
    yet: when the answer arrives, be it a duration or a rejection, the
    countdown starts all the same. *)
Theorem skip_before_reply_does_not_stop (answer : string + Z) :
  TAURI b = true -> TAURI_core b = true ->
  let st := run b (boot b) [Skip; Reply answer] in
  counting st /\
  close_routines st = 1%nat /\
  (window_api b -> close_requests st = 1%nat) /\
  timeLeft st = match answer with inr d => d | inl _ => 20 end.
Proof.
  intros H1 H2. unfold boot, init, initial. rewrite H1, H2.
  cbn [negb orb run fold_left step]. unfold on_skip, clearInterval. fields.
  match goal with
  | |- context [closeWindow b ?s] =>
      destruct (closeWindow_frame s) as (Hr & Hd & Hl & Hi & Hm & Hw & _);
      pose proof (closeWindow_requests s) as Hq;
      generalize dependent (closeWindow b s)
  end.
  intros st1. cbv zeta. unfold close_routines, close_requests. fields.
  rewrite !count_app. cbn [count is_CloseRoutine is_CloseRequest].
  intros Hr Hd Hl Hi Hm Hw Hq. rewrite Hw. unfold init_resume.
  destruct answer as [error|d];
    match goal with
    | |- context [startCountdown ?s] =>
        destruct (startCountdown_counting s Hm eq_refl)
          as (Hc & Hd' & Ht' & Hr' & Hq')
    end;
    cbv zeta in *; unfold close_routines, close_requests in *;
    cbn [emit set_duration set_timeLeft set_countdown set_progress set_awaiting
         duration timeLeft intervalId timers awaiting progress_width
         countdown_textContent trace next_timer] in *;
    rewrite ?count_app in *;
    cbn [count is_CloseRoutine is_CloseRequest] in *;
    (split; [exact Hc|]); (split; [lia|]);
    (split; [intros Hb; specialize (Hq Hb); lia|]);
    rewrite Ht'; try assumption; reflexivity.
Qed.

Lemma close_requests_boot : close_requests (boot b) = 0%nat.
Proof.
  unfold boot, init, initial.
  destruct (negb (TAURI b) || negb (TAURI_core b)); reflexivity.
Qed.

Lemma step_without_window (st : State) (i : input) :
  ~ window_api b -> close_requests (step b st i) = close_requests st.
Proof.
  intros Hn. destruct st as [d t id c p ts n a tr].
  destruct i as [answer| |]; unfold step; fields.
  - destruct a; [|reflexivity]. unfold init_resume.
    destruct answer; unfold startCountdown, setInterval, close_requests; fields;
      rewrite ?count_app; cbn [count is_CloseRequest]; lia.
  - destruct (decide (ts = ∅)); [reflexivity|].
    unfold on_tick. fields. destruct (t - 1 <=? 0); [|reflexivity].
    match goal with
    | |- context [closeWindow b ?s] =>
        destruct (closeWindow_more s) as (_ & _ & Hq)
    end.
    cbv zeta in Hq. rewrite (Hq Hn).
    destruct id; unfold clearInterval, close_requests; fields;
      rewrite ?count_app; cbn [count is_CloseRequest]; lia.
  - unfold on_skip. fields.
    match goal with
    | |- context [closeWindow b ?s] =>
        destruct (closeWindow_more s) as (_ & _ & Hq)
    end.
    cbv zeta in Hq. rewrite (Hq Hn).
    destruct id; unfold clearInterval, close_requests; fields;
      rewrite ?count_app; cbn [count is_CloseRequest]; lia.
Qed.

(** X16.  Without the window API (no [window.__TAURI__], no
    [window.__TAURI__.window], or a [getCurrentWindow] that throws) the
    overlay never asks to be closed, whatever ticks and skips come: the
    close routine only writes its error line. *)
Theorem no_close_request_without_window_api (inputs : list input) :
  ~ window_api b ->
  close_requests (run b (boot b) inputs) = 0%nat.
Proof.
  intros Hn. rewrite <- close_requests_boot. generalize (boot b).
  induction inputs as [|i inputs IH]; intros st; [reflexivity|].
  cbn [run fold_left]. unfold run in IH. rewrite IH.
  apply step_without_window, Hn.
Qed.

(** X17.  The duration the backend answers is taken as it is.  With a
    duration of 0 or less the first tick already closes the overlay,
    with [timeLeft] below zero; for a duration of 0 the bar is given the
    width [-Infinity]. *)
Theorem nonpositive_duration_closes_at_once (d : Z) :
  TAURI b = true -> TAURI_core b = true -> d <= 0 ->
  let st := run b (run b (boot b) [Reply (inr d)]) [Tick] in
  closing st /\ timeLeft st = d - 1 /\ timeLeft st < 0 /\
  close_routines st = 1%nat /\
  progress_width st = Some (times (divide (d - 1) d) 100) /\
  (d = 0 -> progress_width st = Some NegInf).
Proof.
  intros H1 H2 Hd.
  destruct (boot_started d H1 H2) as ((Hc & Hdur & Ht & Hr) & _).
  cbv zeta in *. set (st0 := run b (boot b) [Reply (inr d)]) in *.
  cbn [run fold_left].
  destruct (step_tick_last st0 Hc ltac:(lia)) as (Hcl & Ht' & Hd' & Hr' & _ & Hp).
  assert (Hw : progress_width (step b st0 Tick) = Some (times (divide (d - 1) d) 100)).
  { rewrite Hp. unfold ratio. rewrite Ht', Hd', Ht, Hdur. reflexivity. }
  split; [exact Hcl|]. split; [lia|]. split; [lia|]. split; [lia|].
  split; [exact Hw|]. intros Hz. rewrite Hw, Hz. reflexivity.
Qed.

End OverlayProperties.

(* ===================================================================== *)
(** ** The overlay on concrete bridges *)
(* ===================================================================== *)

Section OverlayRuns.
Import Js Overlay.

(** C3, as stated, fails.  With the whole bridge at hand the backend
    answers 20 seconds and twenty ticks bring the countdown to zero:
    the timer is cancelled and the window has been asked to close once.
    A click on the skip button then runs the close routine again and
    asks a second time. *)
Lemma C3_skip_after_timeout_closes_again :
  let b := mkBridge true true true None None in
  let st := run b (boot b) (Reply (inr 20) :: ticks 20) in
  (timeLeft st = 0 /\ step b st Tick = st /\
   close_routines st = 1%nat /\ close_requests st = 1%nat) /\
  (timeLeft (step b st Skip) = 0 /\
   close_routines (step b st Skip) = 2%nat /\
   close_requests (step b st Skip) = 2%nat).
Proof. vm_compute. repeat split. Qed.

(** Skip pressed after the countdown of one second has run out. *)
Lemma C3_closing_is_final_witness :
  let b := mkBridge true true true None None in
  let st := run b (boot b) [Reply (inr 1)] in
  let st' := run b (step b st Tick) [Skip; Tick] in
  timeLeft st' = 0 /\ close_requests st' = 2%nat.
Proof.
  intros b st st'.
  assert (Hs : started_with 1 st) by (apply boot_started; reflexivity).
  destruct Hs as (Hc & _ & Ht & _).
  destruct (C3_closing_is_final b st (step b st Tick) [Skip; Tick] Hc
              (or_intror (conj Ht eq_refl)))
    as (_ & _ & _ & Hz & _ & _ & _ & Hq).
  split; [exact (Hz eq_refl Ht)|].
  unfold st'. rewrite Hq by (repeat split). reflexivity.
Defined.

(** The default of 20 seconds. *)
Lemma C4_countdown_reaches_zero_witness :
  let b := mkBridge true true true None None in
  let st := run b (boot b) [Reply (inr 20)] in
  let st' := run b st (ticks 20) in
  timeLeft st' = 0 /\ is_zero (ratio st') = true /\ close_routines st' = 1%nat.
Proof.
  intros b st st'.
  assert (Hs : started_with 20 st) by (apply boot_started; reflexivity).
  destruct (C4_countdown_reaches_zero b 20 st Hs ltac:(lia))
    as ((Ht & Hz & _ & Hr & _) & _).
  split; [exact Ht|]. split; [exact Hz|exact Hr].
Defined.

(** A page without the bridge, and a backend that rejects the call. *)
Lemma C8_default_duration_fallback_witness :
  (let b := mkBridge false false false None None in
   started_with 20 (boot b)) /\
  (let b := mkBridge true true true None None in
   started_with 20 (run b (boot b) [Reply (inl "no such command")])).
Proof.
  split; intros b.
  - exact (proj1 (proj1 (C8_default_duration_fallback b) (or_introl eq_refl))).
  - exact (proj1 (proj2 (C8_default_duration_fallback b) eq_refl eq_refl
                    "no such command")).
Defined.

(** Three seconds, with a skip, a stray reply and spare ticks. *)
Lemma countdown_stays_in_bounds_witness :
  let b := mkBridge true true true None None in
  let st := run b (boot b) [Reply (inr 3)] in
  let st' := run b st [Tick; Skip; Tick; Reply (inr 9); Tick] in
  0 <= timeLeft st' <= 3 /\ duration st' = 3.
Proof.
  intros b st st'.
  assert (Hs : started_with 3 st) by (apply boot_started; reflexivity).
  destruct (countdown_stays_in_bounds b 3 st
              [Tick; Skip; Tick; Reply (inr 9); Tick] Hs ltac:(lia))
    as (Hb & Hd & _).
  split; [exact Hb|exact Hd].
Defined.

(** Skip first, then the backend answers 7 seconds. *)
Lemma skip_before_reply_does_not_stop_witness :
  let b := mkBridge true true true None None in
  let st := run b (boot b) [Skip; Reply (inr 7)] in
  counting st /\ close_routines st = 1%nat /\ timeLeft st = 7.
Proof.
  intros b st.
  destruct (skip_before_reply_does_not_stop b (inr 7) eq_refl eq_refl)
    as (Hc & Hr & _ & Ht).
  split; [exact Hc|]. split; [exact Hr|exact Ht].
Defined.

(** A bridge without its window part. *)
Lemma no_close_request_without_window_api_witness :
  let b := mkBridge true true false None None in
  let st := run b (boot b) [Reply (inr 1); Tick; Skip] in
  close_requests st = 0%nat /\ close_routines st = 2%nat.
Proof.
  intros b st. split; [|reflexivity].
  apply (no_close_request_without_window_api b).
  intros (_ & H & _). discriminate H.
Defined.

(** The backend answers 0 seconds. *)
Lemma nonpositive_duration_closes_at_once_witness :
  let b := mkBridge true true true None None in
  let st := run b (run b (boot b) [Reply (inr 0)]) [Tick] in
  timeLeft st = -1 /\ progress_width st = Some NegInf.
Proof.
  intros b st.
  destruct (nonpositive_duration_closes_at_once b 0 eq_refl eq_refl ltac:(lia))
    as (_ & Ht & _ & _ & _ & Hp).
  split; [exact Ht|exact (Hp eq_refl)].
Defined.

End OverlayRuns.
